(** * Decision platform: rule engine and decision service

    A shallow embedding of [src/rules/engine.js] (the rule engine) and of
    the decision service that orchestrates it, together with the part of
    the JavaScript value semantics these two files rely on.

    Layout:
    - [JS]: values, completions (normal return or thrown exception), the
      host interface, property reads, conversions, comparison operators;
    - [Engine]: [OUTCOMES], [OPERATORS], [RuleEngine] with [loadRules],
      [getValue], [evaluateCondition], [evaluate];
    - [Service]: [DecisionService] with [validateInput], [decide],
      [buildResponse], [buildErrorResponse], [reloadRules];
    - [Routes]: the handlers of [/decide], [/ready] and [/reload], with
      [getStatus];
    - [Provider]: [buildAIProviders];
    - [Reference]: one concrete host, used to run the definitions on
      concrete documents;
    - the theorems. *)

From Stdlib Require Import List String Ascii Bool Arith NArith ZArith QArith Lia Lqa.
From Stdlib Require Import Permutation Sorted DecimalString.
Import ListNotations.
Local Open Scope nat_scope.
Local Open Scope string_scope.
Local Open Scope list_scope.

(* ===================================================================== *)
(** * JavaScript values and the operations the program applies to them *)
(* ===================================================================== *)

Module JS.

(** ** Completions: a computation returns a value or throws *)

Inductive exn : Type :=
| TypeError (message : string)
| SyntaxError (message : string)
| RangeError (message : string)
| Error (message : string).

(** [error.message] *)
Definition message (e : exn) : string :=
  match e with
  | TypeError m | SyntaxError m | RangeError m | Error m => m
  end.

Inductive completion (A : Type) : Type :=
| Ret (a : A)
| Throw (e : exn).
Arguments Ret {A} a.
Arguments Throw {A} e.

Definition bind {A B : Type} (c : completion A) (k : A -> completion B)
  : completion B :=
  match c with
  | Ret a => k a
  | Throw e => Throw e
  end.

(** [try { c } catch (e) { h e }] *)
Definition try_catch {A : Type} (c : completion A) (h : exn -> completion A)
  : completion A :=
  match c with
  | Ret a => Ret a
  | Throw e => h e
  end.

Definition returns {A : Type} (c : completion A) : Prop :=
  exists a, c = Ret a.

Definition throws {A : Type} (c : completion A) : Prop :=
  exists e, c = Throw e.

Declare Scope js_scope.
Delimit Scope js_scope with js.
Notation "x <- c ;; k" := (bind c (fun x => k))
  (at level 61, c at next level, right associativity) : js_scope.
Local Open Scope js_scope.

(** [array.map(f)] for a callback that may throw: elements are visited
    left to right and the first exception ends the traversal. *)
Fixpoint mapM {A B : Type} (f : A -> completion B) (l : list A)
  : completion (list B) :=
  match l with
  | [] => Ret []
  | x :: rest =>
      y <- f x ;;
      ys <- mapM f rest ;;
      Ret (y :: ys)
  end.

(** [array.filter(f)] for a callback that may throw; [keep] reads the
    callback's result as a boolean. *)
Fixpoint filterM {A R : Type} (keep : R -> bool) (f : A -> completion R)
  (l : list A) : completion (list A) :=
  match l with
  | [] => Ret []
  | x :: rest =>
      r <- f x ;;
      ys <- filterM keep f rest ;;
      Ret (if keep r then x :: ys else ys)
  end.

(** ** Numbers

    A JavaScript number is an IEEE-754 double.  Every finite double is a
    rational, and the program only compares numbers and looks at the sign
    of one difference (the sort comparator); it never needs a rounded
    result.  A number is therefore modelled by its exact value: [NaN], the
    two infinities, or a rational.  The two zeros are one value: nothing
    in the program tells them apart. *)

Inductive number : Type :=
| NaN
| NegInf
| Fin (q : Q)
| PosInf.

Definition Qltb (a b : Q) : bool :=
  match Qcompare a b with Lt => true | _ => false end.

(** Number::lessThan: [None] is the specification's [undefined], the
    answer when an operand is [NaN]. *)
Definition num_lt (x y : number) : option bool :=
  match x, y with
  | NaN, _ | _, NaN => None
  | Fin a, Fin b => Some (Qltb a b)
  | PosInf, _ => Some false
  | _, PosInf => Some true
  | _, NegInf => Some false
  | NegInf, _ => Some true
  end.

(** Number::equal *)
Definition num_eq (x y : number) : bool :=
  match x, y with
  | Fin a, Fin b => Qeq_bool a b
  | PosInf, PosInf | NegInf, NegInf => true
  | _, _ => false
  end.

(** Number::sameValueZero: as [num_eq], but [NaN] is itself. *)
Definition num_same_value_zero (x y : number) : bool :=
  match x, y with
  | NaN, NaN => true
  | _, _ => num_eq x y
  end.

(** Number::subtract.  On two finite operands the model answers the exact
    difference; the double difference has the same sign, which is all a
    sort comparator's caller reads. *)
Definition num_sub (x y : number) : number :=
  match x, y with
  | NaN, _ | _, NaN => NaN
  | Fin a, Fin b => Fin (a - b)
  | PosInf, PosInf | NegInf, NegInf => NaN
  | PosInf, _ | _, NegInf => PosInf
  | NegInf, _ | _, PosInf => NegInf
  end.

Definition num_of_nat (n : nat) : number := Fin (inject_Z (Z.of_nat n)).

(** ** Values

    [VArr] and [VObj] are the arrays and plain objects of a parsed JSON or
    YAML document.  An object is its list of own properties; a read takes
    the first binding of a key.  [VHost h] is an object of the host that a
    computed property read can reach through the prototype chain (a
    built-in function such as [Object], a prototype object); [h] is its
    identity.  Documents never contain a [VHost].

    A string is the sequence of its characters' codes, one byte each: the
    model reads text as ASCII, for which the length, the indices and the
    order of JavaScript's strings are the ones computed here. *)

#[warnings="-register-all"]
Inductive value : Type :=
| VUndefined
| VNull
| VBool (b : bool)
| VNum (n : number)
| VStr (s : string)
| VArr (elements : list value)
| VObj (properties : list (string * value))
| VHost (h : string).

Definition VTrue : value := VBool true.
Definition VFalse : value := VBool false.

(** The host: what the JavaScript engine and its standard library supply
    and the repository does not define. *)
Class Host : Type := {
  (** a compiled regular expression *)
  regexp : Type;
  (** [Get] of a key that is not an own property of the receiver: the
      lookup along its prototype chain (it may run a throwing accessor) *)
  proto_get : value -> string -> completion value;
  (** ToPrimitive of a host object *)
  host_to_primitive : string -> completion value;
  (** the call [f(a, b)] of a host object [f], with no receiver *)
  host_call : string -> value -> value -> completion value;
  (** StringToNumber *)
  StringToNumber : string -> number;
  (** Number::toString *)
  NumberToString : number -> string;
  (** [new RegExp(pattern)] *)
  RegExp : value -> completion regexp;
  (** [regexp.test(s)] for a regular expression without the global or
      sticky flag *)
  test : regexp -> string -> bool
}.

(** *** Own properties *)

Fixpoint lookup (k : string) (ps : list (string * value)) : option value :=
  match ps with
  | [] => None
  | (k', v) :: rest => if String.eqb k k' then Some v else lookup k rest
  end.

Definition digit_of (c : ascii) : option N :=
  let n := N_of_ascii c in
  if ((48 <=? n) && (n <=? 57))%N then Some (n - 48)%N else None.

Fixpoint parse_digits (s : string) (acc : N) : option N :=
  match s with
  | EmptyString => Some acc
  | String c rest =>
      match digit_of c with
      | Some d => parse_digits rest (10 * acc + d)%N
      | None => None
      end
  end.

(** A canonical numeric string names an index: digits, no leading zero. *)
Definition array_index (k : string) : option N :=
  match k with
  | EmptyString => None
  | String "0"%char EmptyString => Some 0%N
  | String "0"%char _ => None
  | _ => parse_digits k 0%N
  end.

Fixpoint string_nth (n : nat) (s : string) : option string :=
  match s, n with
  | EmptyString, _ => None
  | String c _, O => Some (String c EmptyString)
  | String _ rest, S m => string_nth m rest
  end.

(** The own properties of a value: the bindings of an object; the indices
    and [length] of an array and of a string. *)
Definition own_property (v : value) (k : string) : option value :=
  match v with
  | VObj ps => lookup k ps
  | VArr l =>
      if String.eqb k "length" then Some (VNum (num_of_nat (List.length l)))
      else match array_index k with
           | Some i =>
               if (i <? N.of_nat (List.length l))%N
               then nth_error l (N.to_nat i) else None
           | None => None
           end
  | VStr s =>
      if String.eqb k "length" then Some (VNum (num_of_nat (String.length s)))
      else match array_index k with
           | Some i =>
               if (i <? N.of_nat (String.length s))%N
               then option_map VStr (string_nth (N.to_nat i) s) else None
           | None => None
           end
  | _ => None
  end.

Definition cannot_read (v : value) (k : string) : exn :=
  TypeError ("Cannot read properties of "
             ++ (match v with VNull => "null" | _ => "undefined" end)
             ++ " (reading '" ++ k ++ "')")%string.

(** [v.k] for a property name [k] written in the program.  The names the
    program writes ([request], [signals], [rules], [defaults], [id],
    [condition], [outcome], [enabled], [priority], [name], [operator],
    [operands], [field], [op], [value], [no_match_outcome], ...) are
    defined on no built-in prototype, so such a read sees own properties
    only.  Reading a property of [undefined] or [null] throws. *)
Definition prop (v : value) (k : string) : completion value :=
  match v with
  | VUndefined | VNull => Throw (cannot_read v k)
  | _ => Ret (match own_property v k with Some x => x | None => VUndefined end)
  end.

Section WithHost.
Context {H : Host}.

(** [v[k]] for a computed key: own properties first, then the prototype
    chain. *)
Definition get (v : value) (k : string) : completion value :=
  match v with
  | VUndefined | VNull => Throw (cannot_read v k)
  | VHost _ => proto_get v k
  | _ => match own_property v k with
         | Some x => Ret x
         | None => proto_get v k
         end
  end.

(** *** typeof, ToBoolean, equality

    The program applies [typeof] to request data only; for a host object
    the model answers ["function"]. *)

Definition typeof (v : value) : string :=
  match v with
  | VUndefined => "undefined"
  | VNull => "object"
  | VBool _ => "boolean"
  | VNum _ => "number"
  | VStr _ => "string"
  | VArr _ | VObj _ => "object"
  | VHost _ => "function"
  end.

(** ToBoolean *)
Definition truthy (v : value) : bool :=
  match v with
  | VUndefined | VNull => false
  | VBool b => b
  | VNum NaN => false
  | VNum (Fin q) => negb (Qeq_bool q 0)
  | VNum _ => true
  | VStr s => negb (String.eqb s "")
  | VArr _ | VObj _ | VHost _ => true
  end.

(** [a === b].  Two objects are equal when they are the same object.  The
    program compares a value found in the request with a literal of the
    rule document, so two document objects or arrays are never the same
    object; host objects are the same when their identities agree. *)
Definition strict_equal (a b : value) : bool :=
  match a, b with
  | VUndefined, VUndefined => true
  | VNull, VNull => true
  | VBool x, VBool y => Bool.eqb x y
  | VNum x, VNum y => num_eq x y
  | VStr x, VStr y => String.eqb x y
  | VHost x, VHost y => String.eqb x y
  | _, _ => false
  end.

(** SameValueZero, the comparison of [Array.prototype.includes] *)
Definition same_value_zero (a b : value) : bool :=
  match a, b with
  | VNum x, VNum y => num_same_value_zero x y
  | _, _ => strict_equal a b
  end.

Definition isArray (v : value) : bool :=
  match v with VArr _ => true | _ => false end.

(** [b.includes(a)] for an array [b] *)
Definition includes (elements : list value) (a : value) : bool :=
  existsb (fun e => same_value_zero e a) elements.

(** *** ToPrimitive, ToString, ToNumber *)

Definition has_own (k : string) (ps : list (string * value)) : bool :=
  match lookup k ps with Some _ => true | None => false end.

Definition not_primitive : exn :=
  TypeError "Cannot convert object to primitive value".

(** ToString of a primitive *)
Definition PrimToString (v : value) : completion string :=
  match v with
  | VUndefined => Ret "undefined"
  | VNull => Ret "null"
  | VBool true => Ret "true"
  | VBool false => Ret "false"
  | VNum n => Ret (NumberToString n)
  | VStr s => Ret s
  | _ => Throw not_primitive
  end.

(** ToString ([String(v)] for a value that is not a symbol).

    An array converts by [Array.prototype.join]: [undefined] and [null]
    elements give the empty string.  A plain object answers
    ["[object Object]"] through the inherited [toString]; a document
    object with an own [toString] property hides it by a value that cannot
    be called, the inherited [valueOf] answers the object itself, and the
    conversion throws. *)
Fixpoint ToString (v : value) : completion string :=
  match v with
  | VArr l =>
      (fix join (l : list value) : completion string :=
         match l with
         | [] => Ret ""
         | x :: rest =>
             s <- match x with
                  | VUndefined | VNull => Ret ""
                  | _ => ToString x
                  end ;;
             match rest with
             | [] => Ret s
             | _ => r <- join rest ;; Ret (s ++ "," ++ r)%string
             end
         end) l
  | VObj ps =>
      if has_own "toString" ps then Throw not_primitive
      else Ret "[object Object]"
  | VHost h => p <- host_to_primitive h ;; PrimToString p
  | _ => PrimToString v
  end.

(** ToPrimitive.  For the values at hand the hint makes no difference: an
    array or a plain object has no primitive [valueOf], so either order of
    the two methods ends in [toString]. *)
Definition ToPrimitive (v : value) : completion value :=
  match v with
  | VArr _ | VObj _ => s <- ToString v ;; Ret (VStr s)
  | VHost h => host_to_primitive h
  | _ => Ret v
  end.

(** ToNumber of a primitive *)
Definition PrimToNumber (v : value) : completion number :=
  match v with
  | VUndefined => Ret NaN
  | VNull => Ret (Fin 0)
  | VBool true => Ret (Fin 1)
  | VBool false => Ret (Fin 0)
  | VNum n => Ret n
  | VStr s => Ret (StringToNumber s)
  | _ => Throw not_primitive
  end.

Definition ToNumber (v : value) : completion number :=
  p <- ToPrimitive v ;; PrimToNumber p.

(** *** Relational comparison *)

(** IsLessThan(x, y, LeftFirst): [Some true], [Some false], or [None] for
    the specification's [undefined]. *)
Definition IsLessThan (x y : value) (LeftFirst : bool)
  : completion (option bool) :=
  pxy <- (if LeftFirst
          then (px <- ToPrimitive x ;; py <- ToPrimitive y ;; Ret (px, py))
          else (py <- ToPrimitive y ;; px <- ToPrimitive x ;; Ret (px, py))) ;;
  match pxy with
  | (VStr sx, VStr sy) => Ret (Some (String.ltb sx sy))
  | (px, py) =>
      nx <- PrimToNumber px ;;
      ny <- PrimToNumber py ;;
      Ret (num_lt nx ny)
  end.

Definition is_true (r : option bool) : bool :=
  match r with Some true => true | _ => false end.

Definition is_false (r : option bool) : bool :=
  match r with Some false => true | _ => false end.

(** [a < b] *)
Definition less_than (a b : value) : completion bool :=
  r <- IsLessThan a b true ;; Ret (is_true r).

(** [a > b] *)
Definition greater_than (a b : value) : completion bool :=
  r <- IsLessThan b a false ;; Ret (is_true r).

(** [a <= b] *)
Definition less_equal (a b : value) : completion bool :=
  r <- IsLessThan b a false ;; Ret (is_false r).

(** [a >= b] *)
Definition greater_equal (a b : value) : completion bool :=
  r <- IsLessThan a b true ;; Ret (is_false r).

(** [a - b] *)
Definition subtract (a b : value) : completion number :=
  x <- ToNumber a ;;
  y <- ToNumber b ;;
  Ret (num_sub x y).

(** [a || b] *)
Definition or_else (a b : value) : value :=
  if truthy a then a else b.

End WithHost.

(** *** [String.prototype.split] on a one-character separator *)

Fixpoint split (sep : ascii) (s : string) : list string :=
  match s with
  | EmptyString => [EmptyString]
  | String c rest =>
      if Ascii.eqb c sep then EmptyString :: split sep rest
      else match split sep rest with
           | h :: t => String c h :: t
           | [] => [String c EmptyString]
           end
  end.

(** *** [Array.prototype.sort]

    The comparator answers a number [v]; [v > 0] puts its first argument
    after its second, [v < 0] before, and anything else ([0], [NaN])
    leaves the two in their order.  The sort is stable (ECMAScript 2019).
    Which pairs an engine compares is its own choice; for a comparator
    that never throws and orders the elements consistently every stable
    sort returns the same array, and that array is what insertion into a
    sorted suffix computes. *)

Definition positive (v : number) : bool :=
  match num_lt (Fin 0) v with Some true => true | _ => false end.

Fixpoint insert_sorted {A : Type} (cmp : A -> A -> completion number)
  (x : A) (sorted : list A) : completion (list A) :=
  match sorted with
  | [] => Ret [x]
  | y :: rest =>
      v <- cmp x y ;;
      if positive v
      then (r <- insert_sorted cmp x rest ;; Ret (y :: r))
      else Ret (x :: y :: rest)
  end.

Fixpoint sort {A : Type} (cmp : A -> A -> completion number) (l : list A)
  : completion (list A) :=
  match l with
  | [] => Ret []
  | x :: rest =>
      s <- sort cmp rest ;;
      insert_sorted cmp x s
  end.

End JS.

(* ===================================================================== *)
(** * The rule engine ([src/rules/engine.js]) *)
(* ===================================================================== *)

Module Engine.
Import JS.
Local Open Scope js_scope.

(** Decision outcomes: the object literal [OUTCOMES]. *)
Definition OUTCOMES : list (string * value) :=
  [ ("SAFE_ALLOW", VStr "SAFE_ALLOW");
    ("SAFE_DENY", VStr "SAFE_DENY");
    ("GREY_ZONE", VStr "GREY_ZONE") ].

Definition SAFE_ALLOW : value := VStr "SAFE_ALLOW".
Definition SAFE_DENY : value := VStr "SAFE_DENY".
Definition GREY_ZONE : value := VStr "GREY_ZONE".

(** [Object.values(o)] *)
Definition Object_values (o : list (string * value)) : list value :=
  map snd o.

(** Nesting depth of a document; it bounds the recursion of
    [evaluateCondition]. *)
Fixpoint depth (v : value) : nat :=
  match v with
  | VArr l => S (list_max (map depth l))
  | VObj ps => S (list_max (map (fun p => depth (snd p)) ps))
  | _ => 0
  end.

Section WithHost.
Context {H : Host}.

(** ** Comparison operators *)

Definition operator : Type := value -> value -> completion value.

Definition lift_bool (c : completion bool) : completion value :=
  r <- c ;; Ret (VBool r).

Definition op_eq : operator := fun a b => Ret (VBool (strict_equal a b)).
Definition op_neq : operator := fun a b => Ret (VBool (negb (strict_equal a b))).
Definition op_gt : operator := fun a b => lift_bool (greater_than a b).
Definition op_gte : operator := fun a b => lift_bool (greater_equal a b).
Definition op_lt : operator := fun a b => lift_bool (less_than a b).
Definition op_lte : operator := fun a b => lift_bool (less_equal a b).

(** [Array.isArray(b) && b.includes(a)] *)
Definition op_in : operator := fun a b =>
  Ret (VBool (match b with VArr l => includes l a | _ => false end)).

(** [Array.isArray(b) && !b.includes(a)] *)
Definition op_nin : operator := fun a b =>
  Ret (VBool (match b with VArr l => negb (includes l a) | _ => false end)).

Definition op_exists : operator := fun a b =>
  let exists_ := negb (strict_equal a VUndefined) && negb (strict_equal a VNull) in
  Ret (VBool (if strict_equal b VTrue then exists_ else negb exists_)).

Definition op_regex : operator := fun a b =>
  try_catch
    (re <- RegExp b ;;
     s <- ToString a ;;
     Ret (VBool (test re s)))
    (fun _ => Ret VFalse).

(** The object literal [OPERATORS]: its own properties. *)
Definition OPERATORS : list (string * operator) :=
  [ ("eq", op_eq); ("neq", op_neq);
    ("gt", op_gt); ("gte", op_gte); ("lt", op_lt); ("lte", op_lte);
    ("in", op_in); ("nin", op_nin);
    ("exists", op_exists); ("regex", op_regex) ].

Fixpoint assoc {A : Type} (k : string) (l : list (string * A)) : option A :=
  match l with
  | [] => None
  | (k', x) :: rest => if String.eqb k k' then Some x else assoc k rest
  end.

(** What [OPERATORS[op]] evaluates to: one of the functions above, or
    whatever the prototype chain of a plain object holds under the key. *)
Inductive compareFn : Type :=
| Own (f : operator)
| Inherited (v : value).

(** [OPERATORS[op]]: the key is [ToPropertyKey(op)]. *)
Definition OPERATORS_get (op : value) : completion compareFn :=
  key <- ToString op ;;
  match assoc key OPERATORS with
  | Some f => Ret (Own f)
  | None => v <- proto_get (VObj []) key ;; Ret (Inherited v)
  end.

Definition defined (f : compareFn) : bool :=
  match f with
  | Own _ => true
  | Inherited v => truthy v
  end.

(** [compareFn(actualValue, value)] *)
Definition call (f : compareFn) (a b : value) : completion value :=
  match f with
  | Own g => g a b
  | Inherited (VHost h) => host_call h a b
  | Inherited _ => Throw (TypeError "compareFn is not a function")
  end.

(** ** The engine's state *)

Record RuleEngine : Type := {
  configPath : string;
  rules : list value;
  defaults : value;
  aiConfig : value;
  metadata : value
}.

(** [new RuleEngine(configPath)] *)
Definition new_RuleEngine (path : string) : RuleEngine :=
  {| configPath := path;
     rules := [];
     defaults := VObj [];
     aiConfig := VObj [];
     metadata := VObj [] |}.

(** ** [getValue]

    [path.split(".").reduce((current, key) =>
       current && current[key] !== undefined ? current[key] : undefined, obj)] *)

Definition getValue_step (current : value) (key : string) : completion value :=
  if truthy current then
    v <- get current key ;;
    if negb (strict_equal v VUndefined) then get current key
    else Ret VUndefined
  else Ret VUndefined.

Fixpoint reduce (f : value -> string -> completion value)
  (keys : list string) (acc : value) : completion value :=
  match keys with
  | [] => Ret acc
  | k :: rest => acc' <- f acc k ;; reduce f rest acc'
  end.

Definition getValue (obj path : value) : completion value :=
  match path with
  | VStr s => reduce getValue_step (split "."%char s) obj
  | VUndefined | VNull => Throw (cannot_read path "split")
  | _ => Throw (TypeError "path.split is not a function")
  end.

(** ** [evaluateCondition]

    [evaluateCondition_body self] is the method's body, with [self] for
    the recursive call [this.evaluateCondition]. *)

Definition is_true_value (r : value) : bool := strict_equal r VTrue.

Definition evaluateCondition_body (self : value -> value -> completion value)
  (condition input : value) : completion value :=
  operator <- prop condition "operator" ;;
  if truthy operator then
    operands <- prop condition "operands" ;;
    match operands with
    | VArr ops =>
        results <- mapM (fun op => self op input) ops ;;
        if strict_equal operator (VStr "AND") then
          Ret (VBool (forallb is_true_value results))
        else if strict_equal operator (VStr "OR") then
          Ret (VBool (existsb is_true_value results))
        else Ret VFalse
    | _ => Ret VFalse
    end
  else
    field <- prop condition "field" ;;
    op <- prop condition "op" ;;
    value <- prop condition "value" ;;
    actualValue <- getValue input field ;;
    compareFn <- OPERATORS_get op ;;
    if negb (defined compareFn) then Ret VFalse
    else try_catch (call compareFn actualValue value) (fun _ => Ret VFalse).

(** The recursion follows the nesting of the condition document; [fuel]
    bounds the number of nested calls, and [evaluateCondition] supplies
    more than the document's depth, which is enough
    ([evaluateCondition_unfold] below).  The engine's own limit on the
    call stack is not modelled. *)
Fixpoint evaluateCondition_fuel (fuel : nat) (condition input : value)
  : completion value :=
  match fuel with
  | O => Throw (RangeError "Maximum call stack size exceeded")
  | S fuel' =>
      evaluateCondition_body (evaluateCondition_fuel fuel') condition input
  end.

Definition evaluateCondition (condition input : value) : completion value :=
  evaluateCondition_fuel (S (depth condition)) condition input.

(** ** [evaluate] *)

Inductive PathEntry : Type :=
| Marker (text : string)
| Attempt (ruleId ruleName matched : value).

Record MatchedRule : Type := {
  id : value;
  name : value;
  priority : value
}.

(** The result of [evaluate]; the field [evaluationTimeMs], a difference
    of two clock readings, is left out. *)
Record EvaluationResult : Type := {
  outcome : value;
  matchedRule : option MatchedRule;
  evaluationPath : list PathEntry
}.

(** The [for (const rule of this.rules)] loop and the return after it;
    [evaluationPath] is the path built so far. *)
Fixpoint evaluate_rules (this : RuleEngine) (input : value)
  (todo : list value) (evaluationPath : list PathEntry)
  : completion EvaluationResult :=
  match todo with
  | [] =>
      o <- prop (defaults this) "no_match_outcome" ;;
      Ret {| outcome := o; matchedRule := None;
             evaluationPath := evaluationPath |}
  | rule :: rest =>
      condition <- prop rule "condition" ;;
      matches <- evaluateCondition condition input ;;
      ruleId <- prop rule "id" ;;
      ruleName <- prop rule "name" ;;
      let evaluationPath := evaluationPath ++ [Attempt ruleId ruleName matches] in
      if truthy matches then
        o <- prop rule "outcome" ;;
        i <- prop rule "id" ;;
        n <- prop rule "name" ;;
        p <- prop rule "priority" ;;
        Ret {| outcome := o;
               matchedRule := Some {| id := i; name := n; priority := p |};
               evaluationPath := evaluationPath |}
      else evaluate_rules this input rest evaluationPath
  end.

Definition evaluate (this : RuleEngine) (input : value)
  : completion EvaluationResult :=
  if negb (truthy input) || negb (String.eqb (typeof input) "object") then
    o <- prop (defaults this) "no_match_outcome" ;;
    Ret {| outcome := o; matchedRule := None;
           evaluationPath := [Marker "INVALID_INPUT"] |}
  else evaluate_rules this input (rules this) [].

(** ** [loadRules] *)

(** The filter's callback:
    [rule.id && rule.condition &&
     Object.values(OUTCOMES).includes(rule.outcome) && rule.enabled !== false] *)
Definition rule_filter (rule : value) : completion value :=
  i <- prop rule "id" ;;
  if negb (truthy i) then Ret i else
  c <- prop rule "condition" ;;
  if negb (truthy c) then Ret c else
  o <- prop rule "outcome" ;;
  if negb (includes (Object_values OUTCOMES) o) then Ret VFalse else
  e <- prop rule "enabled" ;;
  Ret (VBool (negb (strict_equal e VFalse))).

(** The sort's comparator:
    [(a, b) => (b.priority || 0) - (a.priority || 0)] *)
Definition by_priority (a b : value) : completion number :=
  pb <- prop b "priority" ;;
  pa <- prop a "priority" ;;
  subtract (or_else pb (VNum (Fin 0))) (or_else pa (VNum (Fin 0))).

(** [(config.rules || []).filter(...).sort(...)]: calling [filter] on a
    value that is not an array throws, as no other document value has a
    callable [filter]. *)
Definition active_rules (config : value) : completion (list value) :=
  rs <- prop config "rules" ;;
  match or_else rs (VArr []) with
  | VArr l =>
      kept <- filterM truthy rule_filter l ;;
      sort by_priority kept
  | _ => Throw (TypeError "(config.rules || []).filter is not a function")
  end.

(** A statement of a method body: it reads and writes the engine and may
    throw. *)
Definition action (A : Type) : Type := RuleEngine -> completion A * RuleEngine.

Definition pure {A : Type} (c : completion A) : action A :=
  fun this => (c, this).

Definition assign (f : RuleEngine -> RuleEngine) : action unit :=
  fun this => (Ret tt, f this).

Definition seq {A B : Type} (m : action A) (k : A -> action B) : action B :=
  fun this =>
    match m this with
    | (Ret a, this') => k a this'
    | (Throw e, this') => (Throw e, this')
    end.

Notation "x <~ m ;; k" := (seq m (fun x => k))
  (at level 61, m at next level, right associativity) : js_scope.

Definition set_rules (l : list value) (this : RuleEngine) : RuleEngine :=
  {| configPath := configPath this; rules := l; defaults := defaults this;
     aiConfig := aiConfig this; metadata := metadata this |}.

Definition set_defaults (v : value) (this : RuleEngine) : RuleEngine :=
  {| configPath := configPath this; rules := rules this; defaults := v;
     aiConfig := aiConfig this; metadata := metadata this |}.

Definition set_aiConfig (v : value) (this : RuleEngine) : RuleEngine :=
  {| configPath := configPath this; rules := rules this;
     defaults := defaults this; aiConfig := v; metadata := metadata this |}.

Definition set_metadata (v : value) (this : RuleEngine) : RuleEngine :=
  {| configPath := configPath this; rules := rules this;
     defaults := defaults this; aiConfig := aiConfig this; metadata := v |}.

(** [loadRules].  [source] is what [yaml.load(fs.readFileSync(...))]
    yields: the parsed configuration, or the exception of an unreadable
    file or a malformed document.  The [catch] clause logs and rethrows. *)
Definition loadRules (source : completion value) : action bool :=
  config <~ pure source ;;
  sorted <~ pure (active_rules config) ;;
  _ <~ assign (set_rules sorted) ;;
  d <~ pure (prop config "defaults") ;;
  _ <~ assign (set_defaults
                 (or_else d (VObj [("no_match_outcome", GREY_ZONE)]))) ;;
  a <~ pure (prop config "ai_config") ;;
  _ <~ assign (set_aiConfig (or_else a (VObj []))) ;;
  m <~ pure (prop config "metadata") ;;
  _ <~ assign (set_metadata (or_else m (VObj []))) ;;
  pure (Ret true).

(** [getAIConfig] *)
Definition getAIConfig (this : RuleEngine) : value := aiConfig this.

Record RuleInfo : Type := {
  info_id : value;
  info_name : value;
  info_outcome : value;
  info_priority : value;
  info_enabled : bool
}.

(** [getRules] *)
Definition getRules (this : RuleEngine) : completion (list RuleInfo) :=
  mapM (fun r =>
          i <- prop r "id" ;;
          n <- prop r "name" ;;
          o <- prop r "outcome" ;;
          p <- prop r "priority" ;;
          e <- prop r "enabled" ;;
          Ret {| info_id := i; info_name := n; info_outcome := o;
                 info_priority := p;
                 info_enabled := negb (strict_equal e VFalse) |})
       (rules this).

(** The key of an index: its decimal numeral. *)
Definition index_key (i : nat) : string :=
  NilZero.string_of_uint (Nat.to_uint i).

Fixpoint indexed (i : nat) (l : list value) : list (string * value) :=
  match l with
  | [] => []
  | x :: rest => (index_key i, x) :: indexed (S i) rest
  end.

Fixpoint characters (s : string) : list value :=
  match s with
  | EmptyString => []
  | String c rest => VStr (String c EmptyString) :: characters rest
  end.

(** The properties an object spread [{...v}] copies: the own enumerable
    properties of [v], in their order.  An array and a string give their
    indexed elements; [length] is not enumerable; no other value has any. *)
Definition spread (v : value) : list (string * value) :=
  match v with
  | VObj ps => ps
  | VArr l => indexed 0 l
  | VStr s => indexed 0 (characters s)
  | _ => []
  end.

(** A property written later in an object literal: it replaces the value
    of a key already there, in its place, and is added last otherwise. *)
Fixpoint define_property (k : string) (v : value) (ps : list (string * value))
  : list (string * value) :=
  match ps with
  | [] => [(k, v)]
  | (k', x) :: rest =>
      if String.eqb k k' then (k, v) :: rest
      else (k', x) :: define_property k v rest
  end.

(** [getMetadata]:
    [{...this.metadata, rulesCount: this.rules.length,
      defaultOutcome: this.defaults.no_match_outcome}] *)
Definition getMetadata (this : RuleEngine) : completion value :=
  let copied := spread (metadata this) in
  let counted :=
    define_property "rulesCount" (VNum (num_of_nat (List.length (rules this))))
                    copied in
  d <- prop (defaults this) "no_match_outcome" ;;
  Ret (VObj (define_property "defaultOutcome" d counted)).

End WithHost.

End Engine.

(* ===================================================================== *)
(** * The analyzer's interface, and its combination step *)
(* ===================================================================== *)

Module Analyzer.
Import JS Engine.
Local Open Scope js_scope.

(** The [AIAnalyzer] of [src/ai/analyzer.js], as the decision service
    uses it.  The file is not among the sources, so the class is an
    interface here: [analyze] stands for the awaited call (a rejected
    promise is a thrown exception), and an insight and a combined
    decision are whatever objects the methods answer. *)
Class AIAnalyzer : Type := {
  isEnabled : bool;
  analyze : value -> EvaluationResult -> completion value;
  combineDecision : value -> value -> completion value
}.

(** Modelled from the spec: the baseline verdict of the combination step
    of [AIAnalyzer.combineDecision], whose source file
    [src/ai/analyzer.js] is missing.  The spec maps SAFE_ALLOW to ALLOW,
    SAFE_DENY to DENY and GREY_ZONE to REVIEW; it names no verdict for any
    other outcome, for which the model answers [undefined]. *)
Definition baseline (outcome : value) : value :=
  if strict_equal outcome SAFE_ALLOW then VStr "ALLOW"
  else if strict_equal outcome SAFE_DENY then VStr "DENY"
  else if strict_equal outcome GREY_ZONE then VStr "REVIEW"
  else VUndefined.

(** Modelled from the spec: [AIAnalyzer.combineDecision] of the missing
    [src/ai/analyzer.js].  The baseline verdict of the rule outcome with
    source RULE_ENGINE; when the insight is analyzed, its recommendation
    supersedes the baseline, the source is AI_ANALYSIS and the confidence
    is carried from the insight. *)
Definition spec_combineDecision (outcome aiInsight : value) : completion value :=
  analyzed <- prop aiInsight "analyzed" ;;
  if truthy analyzed then
    recommendation <- prop aiInsight "recommendation" ;;
    confidence <- prop aiInsight "confidence" ;;
    Ret (VObj [ ("finalDecision", recommendation);
                ("source", VStr "AI_ANALYSIS");
                ("confidence", confidence) ])
  else
    Ret (VObj [ ("finalDecision", baseline outcome);
                ("source", VStr "RULE_ENGINE") ]).

(** An analyzer whose combination step is the one the spec describes. *)
Definition spec_analyzer (enabled : bool)
  (analyze : value -> EvaluationResult -> completion value) : AIAnalyzer :=
  {| isEnabled := enabled;
     analyze := analyze;
     combineDecision := spec_combineDecision |}.

End Analyzer.

(* ===================================================================== *)
(** * The decision service ([DecisionService]) *)
(* ===================================================================== *)

Module Service.
Import JS Engine Analyzer.
Local Open Scope js_scope.

Definition dquote : string := String (ascii_of_nat 34) EmptyString.

(** The service's fields.  Calls to the metrics module record counters
    and return nothing the service reads; they are left out. *)
Record DecisionService : Type := {
  version : string;
  ruleEngine : RuleEngine;
  aiAnalyzer : AIAnalyzer
}.

Record Decision : Type := {
  final : value;
  source : value;
  confidence : value
}.

Record RuleEvaluation : Type := {
  rule_outcome : value;
  rule_matchedRule : option MatchedRule
}.

Record ErrorInfo : Type := {
  error_message : string;
  error_type : string
}.

(** [meta] without its two clock readings ([processingTimeMs],
    [timestamp]). *)
Record Meta : Type := {
  meta_version : string;
  meta_requestId : string
}.

(** A response.  An absent key is [None]; [aiAnalysis: null] is
    [Some VNull]. *)
Record Response : Type := {
  decision : Decision;
  ruleEvaluation : option RuleEvaluation;
  aiAnalysis : option value;
  error : option ErrorInfo;
  meta : Meta
}.

Inductive Validation : Type :=
| Valid
| Invalid (error : string).

(** [validateInput] *)
Definition validateInput (input : value) : completion Validation :=
  if negb (truthy input) || negb (String.eqb (typeof input) "object") then
    Ret (Invalid "Input must be a non-null object")
  else
    request <- prop input "request" ;;
    if negb (truthy request) || negb (String.eqb (typeof request) "object") then
      Ret (Invalid ("Input must contain a " ++ dquote ++ "request" ++ dquote
                    ++ " object")%string)
    else
      signals <- prop input "signals" ;;
      if negb (truthy signals) || negb (String.eqb (typeof signals) "object") then
        Ret (Invalid ("Input must contain a " ++ dquote ++ "signals" ++ dquote
                      ++ " object")%string)
      else Ret Valid.

(** [buildErrorResponse] *)
Definition buildErrorResponse (this : DecisionService) (error : string)
  (requestId : string) : Response :=
  {| decision := {| final := VStr "ERROR";
                    source := VStr "SYSTEM_ERROR";
                    confidence := VNull |};
     ruleEvaluation := None;
     aiAnalysis := None;
     error := Some {| error_message := error;
                      error_type := "PROCESSING_ERROR" |};
     meta := {| meta_version := version this;
                meta_requestId := requestId |} |}.

(** [buildResponse] *)
Definition buildResponse (this : DecisionService)
  (ruleResult : EvaluationResult) (aiInsight combinedDecision : value)
  (requestId : string) : completion Response :=
  analysis <-
    (if truthy aiInsight then
       analyzed <- prop aiInsight "analyzed" ;;
       if truthy analyzed then
         recommendation <- prop aiInsight "recommendation" ;;
         conf <- prop aiInsight "confidence" ;;
         reasoning <- prop aiInsight "reasoning" ;;
         riskFactors <- prop aiInsight "riskFactors" ;;
         mitigatingFactors <- prop aiInsight "mitigatingFactors" ;;
         analysisTimeMs <- prop aiInsight "analysisTimeMs" ;;
         err <- prop aiInsight "error" ;;
         Ret (VObj [ ("recommendation", recommendation);
                     ("confidence", conf);
                     ("reasoning", reasoning);
                     ("riskFactors", or_else riskFactors (VArr []));
                     ("mitigatingFactors", or_else mitigatingFactors (VArr []));
                     ("analysisTimeMs", or_else analysisTimeMs VNull);
                     ("error", or_else err VNull) ])
       else Ret VNull
     else Ret VNull) ;;
  finalDecision <- prop combinedDecision "finalDecision" ;;
  src <- prop combinedDecision "source" ;;
  conf <- prop combinedDecision "confidence" ;;
  Ret {| decision := {| final := finalDecision;
                        source := src;
                        confidence := or_else conf VNull |};
         ruleEvaluation := Some {| rule_outcome := outcome ruleResult;
                                   rule_matchedRule := matchedRule ruleResult |};
         aiAnalysis := Some analysis;
         error := None;
         meta := {| meta_version := version this;
                    meta_requestId := requestId |} |}.

(** The insight [decide] starts from. *)
Definition no_insight : value :=
  VObj [ ("analyzed", VFalse);
         ("recommendation", VNull);
         ("confidence", VNull);
         ("reasoning", VNull);
         ("riskFactors", VArr []);
         ("mitigatingFactors", VArr []);
         ("analysisTimeMs", VNull);
         ("error", VNull) ].

(** One run of [decide]: the response it resolves to, and the calls of
    [aiAnalyzer.analyze] it made, in order. *)
Record Run : Type := {
  response : Response;
  analyzeCalls : list (value * EvaluationResult)
}.

Section WithHost.
Context {H : Host}.

(** [needsAI] *)
Definition needsAI (this : DecisionService) (ruleResult : EvaluationResult)
  : bool :=
  strict_equal (outcome ruleResult) GREY_ZONE
  && String.eqb (version this) "v2"
  && @isEnabled (aiAnalyzer this).

(** [await this.aiAnalyzer.analyze(input, ruleResult)]: what the call
    answers, and the call itself as the one entry it adds to the record
    of calls.  Nothing else writes to that record. *)
Definition analyze_call (this : DecisionService) (input : value)
  (ruleResult : EvaluationResult)
  : completion value * list (value * EvaluationResult) :=
  (@analyze (aiAnalyzer this) input ruleResult, [(input, ruleResult)]).

(** The [try] block of [decide] after validation has passed: the
    completion of the block and the calls of [analyze] made on the way.
    The recording of metrics, with the analyzer status it reports, is
    left out. *)
Definition decide_valid (this : DecisionService) (input : value)
  (requestId : string)
  : completion Response * list (value * EvaluationResult) :=
  match evaluate (ruleEngine this) input with
  | Throw e => (Throw e, [])
  | Ret ruleResult =>
      if needsAI this ruleResult then
        let called := analyze_call this input ruleResult in
        (aiInsight <- fst called ;;
         _ <- prop aiInsight "analyzed" ;;
         combinedDecision <-
           @combineDecision (aiAnalyzer this) (outcome ruleResult) aiInsight ;;
         buildResponse this ruleResult aiInsight combinedDecision requestId,
         snd called)
      else
        (combinedDecision <-
           @combineDecision (aiAnalyzer this) (outcome ruleResult) no_insight ;;
         buildResponse this ruleResult no_insight combinedDecision requestId,
         [])
  end.

(** [decide]: validation, then the block above; the [catch] clause turns
    any exception into an error response. *)
Definition decide (this : DecisionService) (input : value)
  (requestId : string) : Run :=
  match validateInput input with
  | Throw e =>
      {| response := buildErrorResponse this (message e) requestId;
         analyzeCalls := [] |}
  | Ret (Invalid error) =>
      {| response := buildErrorResponse this error requestId;
         analyzeCalls := [] |}
  | Ret Valid =>
      match decide_valid this input requestId with
      | (Ret r, calls) => {| response := r; analyzeCalls := calls |}
      | (Throw e, calls) =>
          {| response := buildErrorResponse this (message e) requestId;
             analyzeCalls := calls |}
      end
  end.

Record ReloadResult : Type := {
  success : bool;
  rulesCount : option nat;
  reload_error : option string
}.

Definition set_ruleEngine (e : RuleEngine) (this : DecisionService)
  : DecisionService :=
  {| version := version this; ruleEngine := e; aiAnalyzer := aiAnalyzer this |}.

(** [reloadRules]: [source] is what reading and parsing the configuration
    file yields at the time of the call. *)
Definition reloadRules (source : completion value) (this : DecisionService)
  : ReloadResult * DecisionService :=
  match loadRules source (ruleEngine this) with
  | (Ret _, engine) =>
      let this' := set_ruleEngine engine this in
      match (_  <- getRules engine ;; getRules engine) with
      | Ret l =>
          ({| success := true; rulesCount := Some (List.length l);
              reload_error := None |}, this')
      | Throw e =>
          ({| success := false; rulesCount := None;
              reload_error := Some (message e) |}, this')
      end
  | (Throw e, engine) =>
      ({| success := false; rulesCount := None;
          reload_error := Some (message e) |},
       set_ruleEngine engine this)
  end.

End WithHost.

End Service.

(* ===================================================================== *)
(** * The routes that call the service ([src/routes]) *)
(* ===================================================================== *)

Module Routes.
Import JS Engine Analyzer Service.
Local Open Scope js_scope.

(** What a handler sends: the status code and the JSON body. *)
Record Reply (A : Type) : Type := {
  status_code : nat;
  body : A
}.
Arguments status_code {A} _.
Arguments body {A} _.

(** The body of [GET /ready]. *)
Record ReadyBody : Type := {
  ready_status : string;
  ready_reason : option string;
  ready_version : option string;
  ready_rulesLoaded : option value;
  ready_aiEnabled : option value
}.

(** The body of [POST /reload], without its timestamp. *)
Record ReloadBody : Type := {
  reload_status : string;
  reload_rulesCount : option nat;
  reload_failure : option string
}.

(** What [getStatus] answers. *)
Record Status : Type := {
  status_version : string;
  status_ruleEngine : value;
  status_aiAnalyzer : value;
  status_rules : list RuleInfo
}.

Section WithHost.
Context {H : Host}.

(** [DecisionService.getStatus].  [analyzerStatus] is what
    [this.aiAnalyzer.getStatus()] answers; the method is defined in
    [src/ai/analyzer.js], which is not among the sources. *)
Definition getStatus (analyzerStatus : completion value)
  (this : DecisionService) : completion Status :=
  m <- getMetadata (ruleEngine this) ;;
  a <- analyzerStatus ;;
  l <- getRules (ruleEngine this) ;;
  Ret {| status_version := version this;
         status_ruleEngine := m;
         status_aiAnalyzer := a;
         status_rules := l |}.

(** The handler of [GET /ready] ([readyRoutes]).  An exception leaves the
    handler for the framework's error handler. *)
Definition ready (isShuttingDown : bool) (analyzerStatus : completion value)
  (this : DecisionService) (ENGINE_VERSION : string)
  : completion (Reply ReadyBody) :=
  if isShuttingDown then
    Ret {| status_code := 503;
           body := {| ready_status := "not_ready";
                      ready_reason := Some "shutting_down";
                      ready_version := None;
                      ready_rulesLoaded := None;
                      ready_aiEnabled := None |} |}
  else
    status <- getStatus analyzerStatus this ;;
    count <- prop (status_ruleEngine status) "rulesCount" ;;
    rulesLoaded <- greater_than count (VNum (Fin 0)) ;;
    if negb rulesLoaded then
      Ret {| status_code := 503;
             body := {| ready_status := "not_ready";
                        ready_reason := Some "rule_not_loaded";
                        ready_version := None;
                        ready_rulesLoaded := None;
                        ready_aiEnabled := None |} |}
    else
      count' <- prop (status_ruleEngine status) "rulesCount" ;;
      enabled <- prop (status_aiAnalyzer status) "enabled" ;;
      Ret {| status_code := 200;
             body := {| ready_status := "ready";
                        ready_reason := None;
                        ready_version := Some ENGINE_VERSION;
                        ready_rulesLoaded := Some count';
                        ready_aiEnabled := Some enabled |} |}.

(** The handler of [POST /decide] ([decisionRoutes]): it calls
    [decide(input)] with one argument, so the request id is the
    parameter's default, ["unknown"]. *)
Definition post_decide (this : DecisionService) (input : value)
  : Reply Response :=
  let result := response (decide this input "unknown") in
  {| status_code :=
       if strict_equal (final (decision result)) (VStr "ERROR")
       then 500 else 200;
     body := result |}.

(** The handler of [POST /reload] ([reloadRoutes]), and the service it
    leaves. *)
Definition post_reload (source : completion value) (this : DecisionService)
  : Reply ReloadBody * DecisionService :=
  let (result, this') := reloadRules source this in
  (if success result then
     {| status_code := 200;
        body := {| reload_status := "reloaded";
                   reload_rulesCount := rulesCount result;
                   reload_failure := None |} |}
   else
     {| status_code := 500;
        body := {| reload_status := "failed";
                   reload_rulesCount := None;
                   reload_failure := reload_error result |} |},
   this').

End WithHost.

End Routes.

(* ===================================================================== *)
(** * The provider list ([src/ai/provider.js]) *)
(* ===================================================================== *)

Module Provider.
Import JS.
Local Open Scope js_scope.

Record AIProvider : Type := {
  provider_name : string;
  provider_model : value;
  provider_apiKey : value;
  provider_apiUrl : string
}.

Definition gemini_url : string :=
  "https://generativelanguage.googleapis.com/v1/models".

Definition claude_url : string := "https://api.anthropic.com/v1/messages".

(** [env.a && env.b], read as a condition *)
Definition both (env : value) (a b : string) : completion bool :=
  x <- prop env a ;;
  if truthy x then (y <- prop env b ;; Ret (truthy y)) else Ret false.

(** [buildAIProviders]: the three [if] statements, each pushing at most
    one provider.  The values of a process environment are strings, so
    [!==] compares primitives here. *)
Definition buildAIProviders (env : value) : completion (list AIProvider) :=
  primary <-
    (c <- both env "GEMINI_API_KEY" "GEMINI_PRIMARY_MODEL" ;;
     if c then
       m <- prop env "GEMINI_PRIMARY_MODEL" ;;
       k <- prop env "GEMINI_API_KEY" ;;
       Ret [ {| provider_name := "gemini"; provider_model := m;
                provider_apiKey := k; provider_apiUrl := gemini_url |} ]
     else Ret []) ;;
  fallback <-
    (c <- both env "GEMINI_API_KEY" "GEMINI_FALLBACK_MODEL" ;;
     if c then
       f <- prop env "GEMINI_FALLBACK_MODEL" ;;
       p <- prop env "GEMINI_PRIMARY_MODEL" ;;
       if negb (strict_equal f p) then
         m <- prop env "GEMINI_FALLBACK_MODEL" ;;
         k <- prop env "GEMINI_API_KEY" ;;
         Ret [ {| provider_name := "gemini"; provider_model := m;
                  provider_apiKey := k; provider_apiUrl := gemini_url |} ]
       else Ret []
     else Ret []) ;;
  claude <-
    (c <- both env "CLAUDE_API_KEY" "CLAUDE_MODEL" ;;
     if c then
       m <- prop env "CLAUDE_MODEL" ;;
       k <- prop env "CLAUDE_API_KEY" ;;
       Ret [ {| provider_name := "claude"; provider_model := m;
                provider_apiKey := k; provider_apiUrl := claude_url |} ]
     else Ret []) ;;
  Ret (primary ++ fallback ++ claude).

End Provider.

(* ===================================================================== *)
(** * A reference host *)
(* ===================================================================== *)

(** One concrete [Host], on which the definitions run.  It is small on
    purpose: prototypes hold no properties, numbers convert to and from
    strings as integers written in decimal, and a regular expression is
    made of literal characters, [.], a postfix [*], a leading [^] and a
    trailing [$] (any other pattern is rejected).  The general theorems
    below hold for every host; the examples run on this one and read own
    properties only. *)

Module Reference.
Import JS.
Local Open Scope js_scope.

Definition is_newline (c : ascii) : bool :=
  Ascii.eqb c (ascii_of_nat 10) || Ascii.eqb c (ascii_of_nat 13).

Definition char_matches (p c : ascii) : bool :=
  if Ascii.eqb p "."%char then negb (is_newline c) else Ascii.eqb p c.

(** Does the pattern match at the start of the text? *)
Fixpoint match_here (re text : string) {struct re} : bool :=
  match re with
  | EmptyString => true
  | String p re' =>
      match re' with
      | String "*"%char re'' =>
          (fix star (text : string) : bool :=
             match_here re'' text
             || match text with
                | String c text' => char_matches p c && star text'
                | EmptyString => false
                end) text
      | EmptyString =>
          if Ascii.eqb p "$"%char
          then match text with EmptyString => true | _ => false end
          else match text with
               | String c _ => char_matches p c
               | EmptyString => false
               end
      | _ =>
          match text with
          | String c text' => char_matches p c && match_here re' text'
          | EmptyString => false
          end
      end
  end.

(** Does the pattern match somewhere in the text? *)
Fixpoint match_anywhere (re text : string) : bool :=
  match_here re text
  || match text with
     | String _ text' => match_anywhere re text'
     | EmptyString => false
     end.

Definition search (re text : string) : bool :=
  match re with
  | String "^"%char re' => match_here re' text
  | _ => match_anywhere re text
  end.

Definition is_meta (c : ascii) : bool :=
  existsb (Ascii.eqb c)
    (list_ascii_of_string "\+?()[]{}|^$*").

(** The supported patterns. [star_ok] tells whether a [*] may come next. *)
Fixpoint supported (star_ok : bool) (re : string) : bool :=
  match re with
  | EmptyString => true
  | String "*"%char rest => star_ok && supported false rest
  | String "$"%char EmptyString => true
  | String c rest => negb (is_meta c) && supported true rest
  end.

Definition compile (pattern : value) : completion string :=
  match pattern with
  | VStr s =>
      let body := match s with String "^"%char r => r | _ => s end in
      if supported false body then Ret s
      else Throw (SyntaxError "Invalid regular expression")
  | _ => Throw (SyntaxError "Invalid regular expression")
  end.

Fixpoint digits_to_Z (s : string) (acc : Z) : option Z :=
  match s with
  | EmptyString => Some acc
  | String c rest =>
      match digit_of c with
      | Some d => digits_to_Z rest (10 * acc + Z.of_N d)%Z
      | None => None
      end
  end.

Definition string_to_number (s : string) : number :=
  match s with
  | EmptyString => Fin 0
  | String "-"%char (String c r) =>
      match digits_to_Z (String c r) 0 with
      | Some z => Fin (inject_Z (- z))
      | None => NaN
      end
  | _ =>
      match digits_to_Z s 0 with
      | Some z => Fin (inject_Z z)
      | None => NaN
      end
  end.

Fixpoint decimal (fuel : nat) (n : N) (acc : string) : string :=
  match fuel with
  | O => acc
  | S fuel' =>
      let acc' := String (ascii_of_N (48 + n mod 10)) acc in
      if (n / 10 =? 0)%N then acc' else decimal fuel' (n / 10)%N acc'
  end.

Definition Z_to_string (z : Z) : string :=
  let n := Z.to_N (Z.abs z) in
  let body := decimal (S (N.to_nat (N.log2 n))) n EmptyString in
  if (z <? 0)%Z then String "-"%char body else body.

Definition number_to_string (n : number) : string :=
  match n with
  | NaN => "NaN"
  | PosInf => "Infinity"
  | NegInf => "-Infinity"
  | Fin q => Z_to_string (Qnum q / Zpos (Qden q))
  end.

Definition host : Host :=
  {| regexp := string;
     proto_get := fun _ _ => Ret VUndefined;
     host_to_primitive := fun h => Ret (VStr h);
     host_call := fun h _ _ => Throw (TypeError (h ++ " is not a function"));
     StringToNumber := string_to_number;
     NumberToString := number_to_string;
     RegExp := compile;
     test := search |}.

End Reference.

(* ===================================================================== *)
(** * Properties *)
(* ===================================================================== *)

Import JS Engine Analyzer Service.
Local Open Scope js_scope.

(** [v.k] read as a value: [undefined] when [v] has no such own property. *)
Definition field_of (v : value) (k : string) : value :=
  match own_property v k with Some x => x | None => VUndefined end.

(** A non-null object in JavaScript's sense ([typeof v === "object"] and
    [v] is not [null]): a plain object or an array. *)
Definition is_object (v : value) : bool :=
  match v with VArr _ | VObj _ => true | _ => false end.

Definition nullish (v : value) : bool :=
  match v with VUndefined | VNull => true | _ => false end.

(** A leaf condition: no truthy [operator], and the three properties the
    method destructures. *)
Definition is_leaf (c : value) (field : string) (op operand : value) : Prop :=
  exists o, prop c "operator" = Ret o /\ truthy o = false
            /\ prop c "field" = Ret (VStr field)
            /\ prop c "op" = Ret op
            /\ prop c "value" = Ret operand.

(** A leaf condition written out. *)
Definition leaf (field op : string) (operand : value) : value :=
  VObj [("field", VStr field); ("op", VStr op); ("value", operand)].

Definition num (z : Z) : value := VNum (Fin (inject_Z z)).

Section Vocabulary.
Context {H : Host}.

(** What the loop of [evaluate] computes as [matches] for a rule. *)
Definition rule_result (rule input : value) : completion value :=
  c <- prop rule "condition" ;; evaluateCondition c input.

(** The rule's condition evaluates, and does not match. *)
Definition no_match (input rule : value) : Prop :=
  exists v, rule_result rule input = Ret v /\ truthy v = false.

(** The attempt the loop records for a rule. *)
Definition attempt_of (input rule : value) : PathEntry :=
  Attempt (field_of rule "id") (field_of rule "name")
          (match rule_result rule input with Ret v => v | Throw _ => VUndefined end).

(** What [regex] answers for a resolved value [a]: the test of
    [String(a)], and [false] when the pattern or the conversion throws. *)
Definition regex_answer (pattern a : value) : bool :=
  match RegExp pattern with
  | Ret re =>
      match ToString a with
      | Ret s => test re s
      | Throw _ => false
      end
  | Throw _ => false
  end.

End Vocabulary.

(** The names of the four ordering operators. *)
Definition ordering_names : list string := ["gt"; "gte"; "lt"; "lte"].

(** The identity [evaluate] reports for a matched rule. *)
Definition identity_of (rule : value) : MatchedRule :=
  {| id := field_of rule "id";
     name := field_of rule "name";
     priority := field_of rule "priority" |}.

(** The state a successful load leaves. *)
Definition loaded (config : value) (sorted : list value) (this : RuleEngine)
  : RuleEngine :=
  {| configPath := configPath this;
     rules := sorted;
     defaults := or_else (field_of config "defaults")
                         (VObj [("no_match_outcome", GREY_ZONE)]);
     aiConfig := or_else (field_of config "ai_config") (VObj []);
     metadata := or_else (field_of config "metadata") (VObj []) |}.

(** A request as [decide] expects it: a non-null object that contains a
    [request] sub-object and a [signals] sub-object. *)
Definition well_formed_request (input : value) : bool :=
  is_object input
  && is_object (field_of input "request")
  && is_object (field_of input "signals").

(** The rules of a configuration document: the elements of its [rules]
    array, none when the document has no such array. *)
Definition source_rules (config : value) : list value :=
  match field_of config "rules" with
  | VArr l => l
  | _ => []
  end.

Definition outcome_valid (o : value) : bool :=
  match o with
  | VStr s =>
      String.eqb "SAFE_ALLOW" s || String.eqb "SAFE_DENY" s
      || String.eqb "GREY_ZONE" s
  | _ => false
  end.

(** A source rule that belongs to the active set: it has an id and a
    condition (present and truthy: not empty, zero, [false] or [null]),
    its outcome is one of the three, and it is not explicitly disabled
    ([enabled: false]). *)
Definition active (rule : value) : bool :=
  truthy (field_of rule "id")
  && truthy (field_of rule "condition")
  && outcome_valid (field_of rule "outcome")
  && negb (match field_of rule "enabled" with VBool false => true | _ => false end).




(** Stable insertion sort by descending key: an element goes before the
    first element whose key is not greater than its own. *)
Section StableInsertion.
Context {A : Type} (key : A -> Q).





End StableInsertion.

(** ** Example documents

    A request, a rule configuration, and the engine and services they
    give on the reference host. *)

Module Examples.

Definition request (score : Z) (flag : value) : value :=
  VObj [ ("request", VObj [("name", VStr "bob")]);
         ("signals", VObj [("score", num score); ("flag", flag)]) ].

(** score 90, the flag an explicit [null] *)
Definition input_high : value := request 90 VNull.
(** score 50, flagged *)
Definition input_flagged : value := request 50 VTrue.
(** score 50, not flagged *)
Definition input_plain : value := request 50 VNull.

Definition review_flagged : value :=
  VObj [ ("id", VStr "review-flagged"); ("name", VStr "Flagged");
         ("priority", num 5);
         ("condition", leaf "signals.flag" "exists" VTrue);
         ("outcome", VStr "GREY_ZONE") ].

Definition deny_high_score : value :=
  VObj [ ("id", VStr "deny-high-score"); ("name", VStr "High score");
         ("priority", num 10);
         ("condition", leaf "signals.score" "gte" (num 80));
         ("outcome", VStr "SAFE_DENY") ].

Definition allow_low_score : value :=
  VObj [ ("id", VStr "allow-low-score"); ("priority", num 5);
         ("condition", leaf "signals.score" "lt" (num 20));
         ("outcome", VStr "SAFE_ALLOW") ].

Definition switched_off : value :=
  VObj [ ("id", VStr "switched-off"); ("priority", num 99);
         ("condition", leaf "signals.score" "gte" (num 0));
         ("outcome", VStr "SAFE_DENY"); ("enabled", VFalse) ].

Definition unknown_outcome : value :=
  VObj [ ("id", VStr "unknown-outcome"); ("priority", num 50);
         ("condition", leaf "signals.score" "gte" (num 0));
         ("outcome", VStr "MAYBE") ].

(** no priority; its condition, an OR of nothing, never matches *)
Definition no_priority : value :=
  VObj [ ("id", VStr "no-priority");
         ("condition", VObj [("operator", VStr "OR"); ("operands", VArr [])]);
         ("outcome", VStr "SAFE_ALLOW") ].

(** a leaf without a [field]: the filter keeps it, evaluating it throws *)
Definition no_field : value :=
  VObj [ ("id", VStr "no-field"); ("priority", num (-1));
         ("condition", VObj [("op", VStr "eq"); ("value", num 1)]);
         ("outcome", VStr "SAFE_DENY") ].

Definition source_list : list value :=
  [ review_flagged; deny_high_score; allow_low_score; switched_off;
    unknown_outcome; no_priority ].

(** A configuration without a [defaults] section. *)
Definition config : value := VObj [("rules", VArr source_list)].

(** The same rules, and last a rule that cannot be evaluated. *)
Definition config_no_field : value :=
  VObj [("rules", VArr (source_list ++ [no_field]))].

(** A [defaults] section that is present and names no outcome. *)
Definition config_empty_defaults : value :=
  VObj [("rules", VArr []); ("defaults", VObj [])].

(** Two rules whose priorities cannot be converted to numbers. *)
Definition config_unsortable : value :=
  VObj [("rules", VArr
    [ VObj [ ("id", VStr "a"); ("priority", VObj [("toString", num 1)]);
             ("condition", leaf "x" "eq" (num 1)); ("outcome", VStr "SAFE_DENY") ];
      VObj [ ("id", VStr "b"); ("priority", VObj [("toString", num 2)]);
             ("condition", leaf "x" "eq" (num 1)); ("outcome", VStr "SAFE_DENY") ] ])].

Definition load (config : value) : RuleEngine :=
  snd (@loadRules Reference.host (Ret config) (new_RuleEngine "config/rules.yaml")).

Definition engine : RuleEngine := load config.
Definition engine_no_field : RuleEngine := load config_no_field.
Definition engine_empty_defaults : RuleEngine := load config_empty_defaults.

(** score given as the text "90" *)
Definition input_text_score : value :=
  VObj [ ("request", VObj []); ("signals", VObj [("score", VStr "90")]) ].

(** a request without a [signals] object *)
Definition input_no_signals : value := VObj [("request", VObj [])].

(** What [engine] answers when no rule matches [input_plain]. *)
Definition plain_result : EvaluationResult :=
  {| outcome := VStr "GREY_ZONE";
     matchedRule := None;
     evaluationPath :=
       [ Attempt (VStr "deny-high-score") (VStr "High score") VFalse;
         Attempt (VStr "review-flagged") (VStr "Flagged") VFalse;
         Attempt (VStr "allow-low-score") VUndefined VFalse;
         Attempt (VStr "no-priority") VUndefined VFalse ] |}.

Definition failure (error : string) : ReloadResult :=
  {| success := false; rulesCount := None; reload_error := Some error |}.

(** An insight of an analyzer that failed. *)
Definition failed_insight : value :=
  VObj [ ("analyzed", VFalse); ("error", VStr "timeout") ].


(** A service of version v1. *)
Definition service_v1 : DecisionService :=
  {| version := "v1";
     ruleEngine := engine;
     aiAnalyzer := spec_analyzer false (fun _ _ => Ret failed_insight) |}.

End Examples.

(** ** Engines in use, process environments, and further examples *)

Section Reachability.
Context {H : Host}.

(** The states an engine goes through: it is constructed, then loaded
    any number of times, and a load may succeed or fail. *)
Inductive reachable : RuleEngine -> Prop :=
| reachable_new (path : string) : reachable (new_RuleEngine path)
| reachable_load (source : completion value) (this this' : RuleEngine)
    (r : completion bool) :
    reachable this -> loadRules source this = (r, this') -> reachable this'.

End Reachability.

(** A process environment: an object whose values are all strings. *)
Definition environment (env : value) : bool :=
  match env with
  | VObj ps =>
      forallb (fun kv => match snd kv with VStr _ => true | _ => false end) ps
  | _ => false
  end.

(** The provider entries [buildAIProviders] writes for an environment. *)
Definition gemini_entry (env : value) (model : value) : Provider.AIProvider :=
  {| Provider.provider_name := "gemini";
     Provider.provider_model := model;
     Provider.provider_apiKey := field_of env "GEMINI_API_KEY";
     Provider.provider_apiUrl := Provider.gemini_url |}.

Definition claude_entry (env : value) : Provider.AIProvider :=
  {| Provider.provider_name := "claude";
     Provider.provider_model := field_of env "CLAUDE_MODEL";
     Provider.provider_apiKey := field_of env "CLAUDE_API_KEY";
     Provider.provider_apiUrl := Provider.claude_url |}.

Module MoreExamples.
Import Examples.

(** A service whose last rule cannot be evaluated. *)
Definition service_no_field : DecisionService :=
  {| version := "v1";
     ruleEngine := engine_no_field;
     aiAnalyzer := spec_analyzer false (fun _ _ => Ret failed_insight) |}.

(** A service of version v2 whose analyzer is enabled and rejects. *)
Definition service_rejecting : DecisionService :=
  {| version := "v2";
     ruleEngine := engine;
     aiAnalyzer := spec_analyzer true (fun _ _ => Throw (Error "connect ETIMEDOUT")) |}.

(** A configuration whose metadata names a rule count of its own. *)
Definition config_with_metadata : value :=
  VObj [ ("rules", VArr source_list);
         ("metadata", VObj [ ("name", VStr "default"); ("rulesCount", num 99) ]) ].

Definition engine_with_metadata : RuleEngine := load config_with_metadata.

Definition service_with_metadata : DecisionService :=
  {| version := "v1";
     ruleEngine := engine_with_metadata;
     aiAnalyzer := spec_analyzer false (fun _ _ => Ret failed_insight) |}.

(** The fallback model is the primary one; Claude has a key and no model. *)
Definition env_same_fallback : value :=
  VObj [ ("GEMINI_API_KEY", VStr "g-key");
         ("GEMINI_PRIMARY_MODEL", VStr "gemini-3-flash");
         ("GEMINI_FALLBACK_MODEL", VStr "gemini-3-flash");
         ("CLAUDE_API_KEY", VStr "c-key") ].

(** An AND of two leaves, and an OR whose second operand has no field. *)
Definition high_and_named : value :=
  VObj [ ("operator", VStr "AND");
         ("operands", VArr [ leaf "signals.score" "gte" (num 80);
                             leaf "request.name" "eq" (VStr "bob") ]) ].

Definition high_or_broken : value :=
  VObj [ ("operator", VStr "OR");
         ("operands", VArr [ leaf "signals.score" "gte" (num 80);
                             VObj [("op", VStr "eq"); ("value", num 1)] ]) ].

(** What [engine] answers for a score of 90. *)
Definition high_result : EvaluationResult :=
  {| outcome := VStr "SAFE_DENY";
     matchedRule := Some {| id := VStr "deny-high-score";
                            name := VStr "High score";
                            priority := num 10 |};
     evaluationPath :=
       [ Attempt (VStr "deny-high-score") (VStr "High score") VTrue ] |}.



(** A rule of the highest priority whose condition has no [field]. *)
Definition broken_first : value :=
  VObj [ ("id", VStr "broken"); ("priority", num 20);
         ("condition", VObj [("op", VStr "eq"); ("value", num 1)]);
         ("outcome", VStr "SAFE_ALLOW") ].

Definition config_broken_first : value :=
  VObj [("rules", VArr [deny_high_score; broken_first])].

Definition engine_broken_first : RuleEngine := load config_broken_first.





(** An [eq] leaf without a [value]. *)
Definition eq_no_value : value :=
  VObj [("field", VStr "signals.absent"); ("op", VStr "eq")].

End MoreExamples.

Ltac inv H := inversion H; subst; clear H.

(** Equal provider entries have equal fields. *)
Ltac entries :=
  repeat match goal with
  | [ E : Provider.Build_AIProvider _ _ _ _ = Provider.Build_AIProvider _ _ _ _
      |- _ ] => inversion E; clear E; subst
  | [ E : _ \/ _ |- _ ] => destruct E
  | [ E : _ /\ _ |- _ ] => destruct E
  | [ E : False |- _ ] => destruct E
  end.

Section Completions.

Lemma bind_ret {A B : Type} (c : completion A) (k : A -> completion B) (b : B) :
  bind c k = Ret b -> exists a, c = Ret a /\ k a = Ret b.
Proof. destruct c as [a|e]; simpl; [eauto | discriminate]. Qed.

Lemma bind_throw {A B : Type} (c : completion A) (k : A -> completion B) (e : exn) :
  bind c k = Throw e -> c = Throw e \/ exists a, c = Ret a /\ k a = Throw e.
Proof. destruct c as [a|e']; simpl; [eauto | intros [= ->]; auto]. Qed.

Lemma mapM_ext {A B : Type} (f g : A -> completion B) (l : list A) :
  (forall x, In x l -> f x = g x) -> mapM f l = mapM g l.
Proof.
  induction l as [|x l IH]; simpl; intros Hfg; [reflexivity|].
  rewrite (Hfg x (or_introl eq_refl)), IH; auto.
Qed.

Lemma mapM_returns {A B : Type} (f : A -> completion B) (l : list A) :
  Forall (fun x => returns (f x)) l -> returns (mapM f l).
Proof.
  induction 1 as [|x l [y Hy] _ [ys Hys]]; simpl.
  - now exists [].
  - rewrite Hy, Hys. simpl. now eexists.
Qed.

Lemma mapM_throws {A B : Type} (f : A -> completion B) (l : list A) :
  Exists (fun x => throws (f x)) l -> throws (mapM f l).
Proof.
  induction 1 as [x l [e He]|x l _ [e He]]; simpl.
  - rewrite He. now exists e.
  - destruct (f x) as [y|e']; simpl; [|now eexists].
    rewrite He. now exists e.
Qed.

End Completions.

Section Reads.

Lemma prop_field (v : value) (k : string) :
  nullish v = false -> prop v k = Ret (field_of v k).
Proof. destruct v; simpl; intros; try discriminate; reflexivity. Qed.

Lemma prop_ret (v : value) (k : string) (x : value) :
  prop v k = Ret x -> nullish v = false /\ x = field_of v k.
Proof.
  destruct v; simpl; intros Hp; try discriminate; inv Hp; auto.
Qed.

Lemma prop_total (v : value) (k k' : string) (x : value) :
  prop v k = Ret x -> prop v k' = Ret (field_of v k').
Proof. intros Hp. apply prop_field. now apply prop_ret in Hp. Qed.

Lemma is_object_nullish (v : value) : is_object v = true -> nullish v = false.
Proof. destruct v; simpl; congruence. Qed.

(** The code's test [!v || typeof v !== "object"] rejects exactly the
    values that are not objects. *)
Lemma object_test (v : value) :
  negb (truthy v) || negb (String.eqb (typeof v) "object") = negb (is_object v).
Proof.
  destruct v as [| |[]|[| |q|]| | | |]; simpl; try reflexivity.
  - now destruct (Qeq_bool q 0).
  - now destruct (String.eqb s "").
Qed.

End Reads.

Section Depth.

Lemma in_list_max (n : nat) (l : list nat) : In n l -> n <= list_max l.
Proof.
  intros Hin. pose proof (proj1 (list_max_le l (list_max l)) (le_n _)) as Hall.
  rewrite Forall_forall in Hall. now apply Hall.
Qed.

Lemma depth_element (v : value) (l : list value) :
  In v l -> depth v < depth (VArr l).
Proof.
  intros Hin. simpl. apply Nat.lt_succ_r, in_list_max, in_map, Hin.
Qed.

Lemma depth_lookup (k : string) (ps : list (string * value)) (v : value) :
  lookup k ps = Some v -> depth v < depth (VObj ps).
Proof.
  intros Hl. simpl. apply Nat.lt_succ_r, in_list_max.
  induction ps as [|[k' x] ps IH]; simpl in *; [discriminate|].
  destruct (String.eqb k k'); [inv Hl; auto | right; auto].
Qed.

(** A property of a document is a scalar or lies deeper in it. *)
Lemma depth_field (v : value) (k : string) :
  depth (field_of v k) = 0 \/ depth (field_of v k) < depth v.
Proof.
  unfold field_of.
  destruct v as [| | | | s | l | ps | ]; simpl own_property; auto.
  - destruct (String.eqb k "length"); auto.
    destruct (array_index k) as [i|]; auto.
    destruct (i <? _)%N; auto.
    destruct (string_nth (N.to_nat i) s); auto.
  - destruct (String.eqb k "length"); auto.
    destruct (array_index k) as [i|]; auto.
    destruct (i <? _)%N; auto.
    destruct (nth_error l (N.to_nat i)) as [x|] eqn:Hn; auto.
    right. apply depth_element. eapply nth_error_In, Hn.
  - destruct (lookup k ps) as [x|] eqn:Hl; auto.
    right. eapply depth_lookup, Hl.
Qed.

End Depth.

Section Conditions.
Context {H : Host}.

Lemma evaluateCondition_body_ext (f g : value -> value -> completion value)
  (c i : value) :
  (forall op, depth op < depth c -> f op i = g op i) ->
  evaluateCondition_body f c i = evaluateCondition_body g c i.
Proof.
  intros Hfg. unfold evaluateCondition_body.
  destruct (prop c "operator") as [o|e] eqn:Ho; simpl; [|reflexivity].
  destruct (truthy o); [|reflexivity].
  rewrite (prop_total _ _ _ _ Ho). simpl.
  destruct (field_of c "operands") as [| | | | | ops | |] eqn:Hops; try reflexivity.
  rewrite (mapM_ext (fun op => f op i) (fun op => g op i)); [reflexivity|].
  intros op Hin. apply Hfg.
  pose proof (depth_element _ _ Hin) as Hlt.
  destruct (depth_field c "operands") as [H0|Hd]; rewrite Hops in *; [|lia].
  simpl in H0. discriminate.
Qed.

Lemma evaluateCondition_fuel_stable (n : nat) :
  forall m c i, depth c < n -> depth c < m ->
  evaluateCondition_fuel n c i = evaluateCondition_fuel m c i.
Proof.
  induction n as [|n IH]; intros m c i Hn Hm; [lia|].
  destruct m as [|m]; [lia|]. simpl.
  apply evaluateCondition_body_ext. intros op Hop. apply IH; lia.
Qed.

(** [evaluateCondition] satisfies the method's recursive equation: the
    fuel it starts from never runs out. *)
Lemma evaluateCondition_unfold (c i : value) :
  evaluateCondition c i = evaluateCondition_body evaluateCondition c i.
Proof.
  unfold evaluateCondition at 1. simpl.
  apply evaluateCondition_body_ext. intros op Hop.
  unfold evaluateCondition. apply evaluateCondition_fuel_stable; lia.
Qed.

End Conditions.

(* --------------------------------------------------------------------- *)
(** ** Rule evaluation: first match wins *)
(* --------------------------------------------------------------------- *)

Section Evaluation.
Context {H : Host}.

Lemma rule_result_ret (rule input v : value) :
  rule_result rule input = Ret v ->
  nullish rule = false /\
  prop rule "condition" = Ret (field_of rule "condition") /\
  evaluateCondition (field_of rule "condition") input = Ret v.
Proof.
  unfold rule_result. intros Hr.
  apply bind_ret in Hr as (c & Hc & Hv).
  apply prop_ret in Hc as [Hn ->].
  repeat split; auto using prop_field.
Qed.

Lemma no_match_attempt (input rule v : value) :
  rule_result rule input = Ret v ->
  attempt_of input rule = Attempt (field_of rule "id") (field_of rule "name") v.
Proof. unfold attempt_of. now intros ->. Qed.

(** The loop, started with the path [path], on rules none of which
    matches before [rule] does. *)
Lemma evaluate_rules_first_match (this : RuleEngine) (input rule m : value)
  (after : list value) :
  rule_result rule input = Ret m -> truthy m = true ->
  forall before path,
    Forall (no_match input) before ->
    evaluate_rules this input (before ++ rule :: after) path =
    Ret {| outcome := field_of rule "outcome";
           matchedRule := Some (identity_of rule);
           evaluationPath :=
             path ++ map (attempt_of input) before
                  ++ [Attempt (field_of rule "id") (field_of rule "name") m] |}.
Proof.
  intros Hm Ht before. induction before as [|r before IH]; intros path Hall.
  - simpl. apply rule_result_ret in Hm as (Hn & Hc & Hv).
    rewrite Hc. simpl. rewrite Hv. simpl.
    rewrite !(prop_field rule) by assumption. simpl.
    rewrite Ht. reflexivity.
  - inv Hall. destruct H2 as (v & Hv & Hf).
    simpl. rewrite (no_match_attempt _ _ _ Hv).
    apply rule_result_ret in Hv as (Hn & Hc & Hv).
    rewrite Hc. simpl. rewrite Hv. simpl.
    rewrite !(prop_field r) by assumption. simpl.
    rewrite Hf. rewrite IH by assumption.
    now rewrite <- app_assoc.
Qed.

Lemma evaluate_rules_no_match (this : RuleEngine) (input d : value) :
  prop (defaults this) "no_match_outcome" = Ret d ->
  forall todo path,
    Forall (no_match input) todo ->
    evaluate_rules this input todo path =
    Ret {| outcome := d; matchedRule := None;
           evaluationPath := path ++ map (attempt_of input) todo |}.
Proof.
  intros Hd todo. induction todo as [|r todo IH]; intros path Hall.
  - simpl. rewrite Hd. simpl. now rewrite app_nil_r.
  - inv Hall. destruct H2 as (v & Hv & Hf).
    simpl. rewrite (no_match_attempt _ _ _ Hv).
    apply rule_result_ret in Hv as (Hn & Hc & Hv).
    rewrite Hc. simpl. rewrite Hv. simpl.
    rewrite !(prop_field r) by assumption. simpl.
    rewrite Hf. rewrite IH by assumption.
    now rewrite <- app_assoc.
Qed.

(** What the loop returns, whenever it returns: the default after every
    rule failed to match, or the first matching rule. *)
Lemma evaluate_rules_explained (this : RuleEngine) (input : value) :
  forall todo path r,
    evaluate_rules this input todo path = Ret r ->
    (matchedRule r = None
     /\ Forall (no_match input) todo
     /\ prop (defaults this) "no_match_outcome" = Ret (outcome r)
     /\ evaluationPath r = path ++ map (attempt_of input) todo)
    \/ (exists before rule after m,
          todo = before ++ rule :: after
          /\ Forall (no_match input) before
          /\ rule_result rule input = Ret m /\ truthy m = true
          /\ outcome r = field_of rule "outcome"
          /\ matchedRule r = Some (identity_of rule)
          /\ evaluationPath r =
             path ++ map (attempt_of input) before
                  ++ [Attempt (field_of rule "id") (field_of rule "name") m]).
Proof.
  induction todo as [|rule rest IH]; simpl; intros path r Hr.
  - apply bind_ret in Hr as (o & Ho & Hr). inv Hr. left. simpl.
    repeat split; auto. now rewrite app_nil_r.
  - apply bind_ret in Hr as (c & Hc & Hr).
    apply bind_ret in Hr as (m & Hm & Hr).
    apply bind_ret in Hr as (i & Hi & Hr).
    apply bind_ret in Hr as (n & Hn & Hr).
    assert (rule_result rule input = Ret m) as Hres.
    { unfold rule_result. rewrite Hc. exact Hm. }
    apply prop_ret in Hi as [Hnull ->]. apply prop_ret in Hn as [_ ->].
    destruct (truthy m) eqn:Ht.
    + rewrite !(prop_field rule) in Hr by assumption. cbn [bind] in Hr.
      inv Hr. right. exists [], rule, rest, m. simpl. repeat split; auto.
    + destruct (IH _ _ Hr) as [(Hnone & Hall & Hd & Hpath)
                              |(before & hit & after & m' & -> & Hall & Hm' & Ht'
                                & Ho & Hid & Hpath)].
      * left. repeat split; auto.
        -- constructor; [now exists m|assumption].
        -- rewrite Hpath, <- app_assoc. simpl.
           now rewrite (no_match_attempt _ _ _ Hres).
      * right. exists (rule :: before), hit, after, m'. simpl.
        repeat split; auto.
        -- constructor; [now exists m|assumption].
        -- rewrite Hpath, <- app_assoc. simpl.
           now rewrite (no_match_attempt _ _ _ Hres).
Qed.

(** First match wins, as far as the rules considered evaluate.  For
    every rule sequence held by the engine and every valid input (a
    non-null object), [evaluate] visits the rules in their stored order
    and records one attempt per rule considered.  At the first rule whose
    condition matches it returns that rule's outcome and identity (id,
    name, priority), with a path that ends at that rule: the rules after
    it are not evaluated, whatever they are.  If no rule matches it
    returns the configured default outcome with no matched rule and one
    attempt per rule.  A rule does not match when its condition
    evaluates to a falsy value; a condition that throws is not covered
    here. *)
Theorem evaluate_first_match_wins (this : RuleEngine) (input : value) :
  is_object input = true ->
  (forall before rule after m,
      rules this = before ++ rule :: after ->
      Forall (no_match input) before ->
      rule_result rule input = Ret m -> truthy m = true ->
      evaluate this input =
      Ret {| outcome := field_of rule "outcome";
             matchedRule := Some (identity_of rule);
             evaluationPath :=
               map (attempt_of input) before
               ++ [Attempt (field_of rule "id") (field_of rule "name") m] |})
  /\
  (forall d,
      Forall (no_match input) (rules this) ->
      prop (defaults this) "no_match_outcome" = Ret d ->
      evaluate this input =
      Ret {| outcome := d; matchedRule := None;
             evaluationPath := map (attempt_of input) (rules this) |}).
Proof.
  intros Hobj. unfold evaluate. rewrite object_test, Hobj. simpl. split.
  - intros before rule after m -> Hall Hm Ht.
    now rewrite (evaluate_rules_first_match this input rule m after Hm Ht before []).
  - intros d Hall Hd.
    now rewrite (evaluate_rules_no_match this input d Hd (rules this) []).
Qed.

End Evaluation.

(* --------------------------------------------------------------------- *)
(** ** Loading: a failed load changes nothing *)
(* --------------------------------------------------------------------- *)

Section Loading.
Context {H : Host}.

Lemma active_rules_ret (config : value) (l : list value) :
  active_rules config = Ret l -> nullish config = false.
Proof.
  unfold active_rules. intros Ha.
  apply bind_ret in Ha as (rs & Hrs & _). now apply prop_ret in Hrs.
Qed.

(** [loadRules] is all or nothing: it throws and leaves the engine as it
    was, or it returns [true] and every field is the new one. *)
Lemma loadRules_all_or_nothing (source : completion value) (this : RuleEngine) :
  (exists e, loadRules source this = (Throw e, this)
             /\ (source = Throw e
                 \/ exists config, source = Ret config
                                   /\ active_rules config = Throw e))
  \/
  (exists config sorted,
      source = Ret config /\ active_rules config = Ret sorted
      /\ loadRules source this = (Ret true, loaded config sorted this)).
Proof.
  unfold loadRules, seq, pure, assign.
  destruct source as [config|e]; [|left; exists e; auto].
  destruct (active_rules config) as [sorted|e] eqn:Ha.
  - right. exists config, sorted.
    split; [reflexivity|]. split; [assumption|].
    apply active_rules_ret in Ha.
    rewrite !(prop_field config) by assumption. reflexivity.
  - left. exists e. split; [reflexivity|]. right. now exists config.
Qed.

Lemma set_ruleEngine_same (this : DecisionService) :
  set_ruleEngine (ruleEngine this) this = this.
Proof. now destruct this. Qed.

(** C3. If any step of rule loading fails (the source cannot be read or
    parsed, or filtering or sorting the rules throws), the engine's rules,
    defaults and other fields are exactly what they were before the
    attempt, and [reloadRules] reports the failure to its caller:
    [success: false] with the error's message, the service unchanged. *)
Theorem failed_load_keeps_state (source : completion value)
  (this : DecisionService) (e : exn) (engine' : RuleEngine) :
  loadRules source (ruleEngine this) = (Throw e, engine') ->
  engine' = ruleEngine this
  /\ reloadRules source this =
     ({| success := false; rulesCount := None;
         reload_error := Some (message e) |}, this).
Proof.
  intros Hload.
  assert (engine' = ruleEngine this) as ->.
  { destruct (loadRules_all_or_nothing source (ruleEngine this))
      as [(e' & He' & _)|(config & sorted & _ & _ & Hok)]; congruence. }
  split; [reflexivity|].
  unfold reloadRules. rewrite Hload. now rewrite set_ruleEngine_same.
Qed.

End Loading.

(* --------------------------------------------------------------------- *)
(** ** Sorting by descending key, stably *)
(* --------------------------------------------------------------------- *)

Section StableSort.
Context {A : Type} (key : A -> Q).









End StableSort.

(* --------------------------------------------------------------------- *)
(** ** Loading: the active set, sorted *)
(* --------------------------------------------------------------------- *)

Section ActiveRules.
Context {H : Host}.

Lemma includes_outcomes (o : value) :
  includes (Object_values OUTCOMES) o = outcome_valid o.
Proof.
  destruct o as [| |b|n|s|l|ps|h]; try reflexivity.
  simpl. now rewrite !orb_false_r, orb_assoc.
Qed.

Lemma rule_filter_active (r : value) :
  nullish r = false ->
  exists v, rule_filter r = Ret v /\ truthy v = active r.
Proof.
  intros Hn. unfold rule_filter, active.
  rewrite !(prop_field r) by assumption. cbn [bind].
  destruct (truthy (field_of r "id")) eqn:Hi; cbn [negb andb]; [|eauto].
  destruct (truthy (field_of r "condition")) eqn:Hc; cbn [negb andb]; [|eauto].
  rewrite includes_outcomes.
  destruct (outcome_valid (field_of r "outcome")); cbn [negb andb]; [|eauto].
  eexists. split; [reflexivity|].
  now destruct (field_of r "enabled") as [| |[]| | | | |].
Qed.

Lemma rule_filter_ret (r v : value) :
  rule_filter r = Ret v -> nullish r = false.
Proof.
  unfold rule_filter. intros Hr.
  apply bind_ret in Hr as (i & Hi & _). now apply prop_ret in Hi.
Qed.

Lemma filterM_rule_filter (l kept : list value) :
  filterM truthy rule_filter l = Ret kept ->
  kept = filter active l /\ Forall (fun r => nullish r = false) l.
Proof.
  revert kept. induction l as [|r l IH]; simpl; intros kept Hk.
  - inv Hk. auto.
  - apply bind_ret in Hk as (v & Hv & Hk).
    apply bind_ret in Hk as (ys & Hys & Hk). inv Hk.
    destruct (IH _ Hys) as [-> Hall].
    pose proof (rule_filter_ret _ _ Hv) as Hn.
    destruct (rule_filter_active r Hn) as (v' & Hv' & Ht).
    rewrite Hv in Hv'. inv Hv'. rewrite Ht. auto.
Qed.







End ActiveRules.

Section ActiveSet.
Context {H : Host}.

Lemma rules_array (config : value) (l : list value) :
  or_else (field_of config "rules") (VArr []) = VArr l ->
  source_rules config = l.
Proof.
  unfold source_rules, or_else.
  destruct (field_of config "rules") as [| |[]|[| |q|]|s|l'|ps|h]; simpl;
    try congruence.
  - destruct (Qeq_bool q 0); simpl; congruence.
  - destruct (String.eqb s ""); simpl; congruence.
Qed.

Lemma insert_sorted_perm {A : Type} (cmp : A -> A -> completion number)
  (x : A) (l s : list A) :
  insert_sorted cmp x l = Ret s -> Permutation s (x :: l).
Proof.
  revert s. induction l as [|y l IH]; simpl; intros s Hs.
  - now inv Hs.
  - apply bind_ret in Hs as (v & _ & Hs).
    destruct (positive v).
    + apply bind_ret in Hs as (r & Hr & Hs). inv Hs.
      rewrite (IH _ Hr). apply perm_swap.
    + now inv Hs.
Qed.

Lemma sort_perm {A : Type} (cmp : A -> A -> completion number)
  (l s : list A) :
  sort cmp l = Ret s -> Permutation s l.
Proof.
  revert s. induction l as [|x l IH]; simpl; intros s Hs.
  - now inv Hs.
  - apply bind_ret in Hs as (s' & Hs' & Hs).
    rewrite (insert_sorted_perm _ _ _ _ Hs). now apply perm_skip, IH.
Qed.

Lemma active_rules_perm (config : value) (sorted : list value) :
  active_rules config = Ret sorted ->
  Permutation sorted (filter active (source_rules config)).
Proof.
  unfold active_rules. intros Ha.
  apply bind_ret in Ha as (rs & Hrs & Ha).
  apply prop_ret in Hrs as [_ ->].
  destruct (or_else (field_of config "rules") (VArr [])) as [| | | | |l| |] eqn:Hl;
    try discriminate.
  apply rules_array in Hl. rewrite Hl.
  apply bind_ret in Ha as (kept & Hk & Hs).
  apply filterM_rule_filter in Hk as [-> _].
  now apply sort_perm in Hs.
Qed.


Lemma evaluate_rules_none (this : RuleEngine) (input : value) :
  forall todo path r,
    evaluate_rules this input todo path = Ret r ->
    matchedRule r = None ->
    evaluationPath r = path ++ map (attempt_of input) todo.
Proof.
  induction todo as [|rule rest IH]; simpl; intros path r Hr Hnone.
  - apply bind_ret in Hr as (o & _ & Hr). inv Hr. simpl. now rewrite app_nil_r.
  - apply bind_ret in Hr as (c & Hc & Hr).
    apply bind_ret in Hr as (m & Hm & Hr).
    apply bind_ret in Hr as (i & Hi & Hr).
    apply bind_ret in Hr as (n & Hn & Hr).
    destruct (truthy m).
    + apply bind_ret in Hr as (? & _ & Hr).
      apply bind_ret in Hr as (? & _ & Hr).
      apply bind_ret in Hr as (? & _ & Hr).
      apply bind_ret in Hr as (? & _ & Hr).
      inv Hr. discriminate.
    + rewrite (IH _ _ Hr Hnone), <- app_assoc. simpl.
      unfold attempt_of, rule_result. rewrite Hc. simpl. rewrite Hm.
      apply prop_ret in Hi as [_ ->]. apply prop_ret in Hn as [_ ->].
      reflexivity.
Qed.


End ActiveSet.

(* --------------------------------------------------------------------- *)
(** ** Leaf conditions *)
(* --------------------------------------------------------------------- *)

Section Leaves.
Context {H : Host}.

(** What a leaf evaluates to: the second half of the method's body. *)
Lemma evaluateCondition_leaf (c input : value) (f : string) (op operand : value) :
  is_leaf c f op operand ->
  evaluateCondition c input =
  (actualValue <- getValue input (VStr f) ;;
   compareFn <- OPERATORS_get op ;;
   if negb (defined compareFn) then Ret VFalse
   else try_catch (call compareFn actualValue operand) (fun _ => Ret VFalse)).
Proof.
  intros (o & Ho & Hf & Hfield & Hop & Hval).
  rewrite evaluateCondition_unfold. unfold evaluateCondition_body.
  rewrite Ho. cbn [bind]. rewrite Hf, Hfield, Hop, Hval. reflexivity.
Qed.

Lemma leaf_is_leaf (f op : string) (operand : value) :
  is_leaf (leaf f op operand) f (VStr op) operand.
Proof.
  exists VUndefined. unfold leaf, prop, own_property, lookup.
  repeat split; try reflexivity.
Qed.

(** A leaf whose operator is one of the registry's own functions. *)
Lemma evaluateCondition_own (c input a : value) (f name : string)
  (operand : value) (compare : operator) :
  is_leaf c f (VStr name) operand ->
  assoc name OPERATORS = Some compare ->
  getValue input (VStr f) = Ret a ->
  evaluateCondition c input =
  try_catch (compare a operand) (fun _ => Ret VFalse).
Proof.
  intros Hleaf Hcmp Ha. rewrite (evaluateCondition_leaf _ _ _ _ _ Hleaf), Ha.
  cbn [bind]. unfold OPERATORS_get. cbn [ToString PrimToString bind].
  rewrite Hcmp. reflexivity.
Qed.

Lemma try_lift_bool (r : completion bool) :
  exists b, try_catch (lift_bool r) (fun _ => Ret VFalse) = Ret (VBool b).
Proof. destruct r as [b|e]; simpl; [now exists b | now exists false]. Qed.

Lemma num_lt_NaN_r (x : number) : num_lt x NaN = None.
Proof. now destruct x. Qed.

(** [undefined] converts to [NaN], and no ordering holds of [NaN]. *)
Lemma IsLessThan_undefined_l (b : value) (flag : bool) :
  IsLessThan VUndefined b flag = Ret None \/ throws (IsLessThan VUndefined b flag).
Proof.
  unfold IsLessThan, throws.
  destruct flag; cbn [ToPrimitive bind];
    destruct (ToPrimitive b) as [p|e]; cbn [bind]; eauto;
    destruct (PrimToNumber p) as [n|e] eqn:Hp;
    destruct p; simpl in *; try rewrite Hp; simpl; eauto.
Qed.

Lemma IsLessThan_undefined_r (b : value) (flag : bool) :
  IsLessThan b VUndefined flag = Ret None \/ throws (IsLessThan b VUndefined flag).
Proof.
  unfold IsLessThan, throws.
  destruct flag; cbn [ToPrimitive bind];
    destruct (ToPrimitive b) as [p|e]; cbn [bind]; eauto;
    destruct (PrimToNumber p) as [n|e] eqn:Hp;
    destruct p; simpl in *; try rewrite Hp; simpl;
    rewrite ?num_lt_NaN_r; eauto.
Qed.

(** [null] converts to the number 0. *)
Lemma IsLessThan_null_l (b : value) (flag : bool) :
  IsLessThan VNull b flag = IsLessThan (VNum (Fin 0)) b flag.
Proof.
  unfold IsLessThan.
  destruct flag; cbn [ToPrimitive bind];
    destruct (ToPrimitive b) as [p|e]; cbn [bind]; try reflexivity;
    destruct p; reflexivity.
Qed.

Lemma IsLessThan_null_r (b : value) (flag : bool) :
  IsLessThan b VNull flag = IsLessThan b (VNum (Fin 0)) flag.
Proof.
  unfold IsLessThan.
  destruct flag; cbn [ToPrimitive bind];
    destruct (ToPrimitive b) as [p|e]; cbn [bind]; try reflexivity;
    destruct p; reflexivity.
Qed.

Lemma ordering_operator (name : string) :
  In name ordering_names ->
  exists compare, assoc name OPERATORS = Some compare
    /\ (forall a b, exists r, compare a b = lift_bool r)
    /\ (forall b, try_catch (compare VUndefined b) (fun _ => Ret VFalse) = Ret VFalse)
    /\ (forall b, compare VNull b = compare (VNum (Fin 0)) b)
    /\ (forall s n, compare (VStr s) (VNum n)
                    = compare (VNum (StringToNumber s)) (VNum n)).
Proof.
  intros Hin. simpl in Hin.
  destruct Hin as [<-|[<-|[<-|[<-|[]]]]]; eexists; (split; [reflexivity|]);
    (split; [intros a b; eexists; reflexivity|]);
    (split; [|split; [|reflexivity]]); intros b.
  - unfold op_gt, greater_than.
    destruct (IsLessThan_undefined_r b false) as [->|[e ->]]; reflexivity.
  - unfold op_gt, greater_than. now rewrite IsLessThan_null_r.
  - unfold op_gte, greater_equal.
    destruct (IsLessThan_undefined_l b true) as [->|[e ->]]; reflexivity.
  - unfold op_gte, greater_equal. now rewrite IsLessThan_null_l.
  - unfold op_lt, less_than.
    destruct (IsLessThan_undefined_l b true) as [->|[e ->]]; reflexivity.
  - unfold op_lt, less_than. now rewrite IsLessThan_null_l.
  - unfold op_lte, less_equal.
    destruct (IsLessThan_undefined_r b false) as [->|[e ->]]; reflexivity.
  - unfold op_lte, less_equal. now rewrite IsLessThan_null_r.
Qed.

(** C5, as the code has it. For every leaf condition using gt, gte, lt
    or lte whose field path resolves, the comparison does not throw and
    answers a boolean; when the resolved value is missing ([undefined])
    it answers [false] against every operand.  Operands of different
    kinds are not rejected but converted, as JavaScript's comparison has
    it: an explicit [null] is compared as the number 0, and a string
    against a number as the number the string denotes. *)
Theorem ordering_comparison_total_missing_false (c input : value)
  (f name : string) (operand : value) :
  is_leaf c f (VStr name) operand ->
  In name ordering_names ->
  (forall a, getValue input (VStr f) = Ret a ->
             exists b, evaluateCondition c input = Ret (VBool b))
  /\ (getValue input (VStr f) = Ret VUndefined ->
      evaluateCondition c input = Ret VFalse)
  /\ (forall input',
        getValue input (VStr f) = Ret VNull ->
        getValue input' (VStr f) = Ret (VNum (Fin 0)) ->
        evaluateCondition c input = evaluateCondition c input')
  /\ (forall input' s n,
        operand = VNum n ->
        getValue input (VStr f) = Ret (VStr s) ->
        getValue input' (VStr f) = Ret (VNum (StringToNumber s)) ->
        evaluateCondition c input = evaluateCondition c input').
Proof.
  intros Hleaf Hname.
  destruct (ordering_operator name Hname)
    as (compare & Hcmp & Hbool & Hmiss & Hnull & Htext).
  repeat split.
  - intros a Ha. rewrite (evaluateCondition_own _ _ _ _ _ _ _ Hleaf Hcmp Ha).
    destruct (Hbool a operand) as [r ->]. apply try_lift_bool.
  - intros Ha. rewrite (evaluateCondition_own _ _ _ _ _ _ _ Hleaf Hcmp Ha).
    apply Hmiss.
  - intros input' Ha Ha'.
    rewrite (evaluateCondition_own _ _ _ _ _ _ _ Hleaf Hcmp Ha).
    rewrite (evaluateCondition_own _ _ _ _ _ _ _ Hleaf Hcmp Ha').
    now rewrite Hnull.
  - intros input' s n -> Ha Ha'.
    rewrite (evaluateCondition_own _ _ _ _ _ _ _ Hleaf Hcmp Ha).
    rewrite (evaluateCondition_own _ _ _ _ _ _ _ Hleaf Hcmp Ha').
    now rewrite Htext.
Qed.

Lemma strict_equal_undefined (v : value) :
  v <> VUndefined -> strict_equal VUndefined v = false.
Proof. destruct v; simpl; congruence. Qed.



Lemma regex_leaf (c input a : value) (f : string) (pattern : value) :
  is_leaf c f (VStr "regex") pattern ->
  getValue input (VStr f) = Ret a ->
  evaluateCondition c input = Ret (VBool (regex_answer pattern a)).
Proof.
  intros Hleaf Ha.
  rewrite (evaluateCondition_own _ _ _ _ _ _ op_regex Hleaf eq_refl Ha).
  unfold op_regex, regex_answer.
  destruct (RegExp pattern) as [re|e]; [|reflexivity]. cbn [bind].
  destruct (ToString a) as [s|e]; reflexivity.
Qed.

Lemma eq_leaf (c input a : value) (f : string) (operand : value) :
  is_leaf c f (VStr "eq") operand ->
  getValue input (VStr f) = Ret a ->
  evaluateCondition c input = Ret (VBool (strict_equal a operand)).
Proof.
  intros Hleaf Ha.
  now rewrite (evaluateCondition_own _ _ _ _ _ _ op_eq Hleaf eq_refl Ha).
Qed.

(** C10, as the code has it.  For every leaf condition with op [regex]
    the resolved value is converted with [String()] and the pattern is
    tested on that text, whatever the value is; a pattern or a value
    that cannot be converted gives [false].  A missing field is therefore
    tested as the text ["undefined"], and a pattern that matches
    ["undefined"] matches a condition whose field is absent from the
    input.  [eq] on a missing field answers whether its operand is
    [undefined]: it matches no operand that is a value, and it matches
    when the condition has no [value]. *)
Theorem regex_tests_missing_as_undefined (c input a : value) (f : string)
  (pattern : value) :
  is_leaf c f (VStr "regex") pattern ->
  getValue input (VStr f) = Ret a ->
  (forall re s, RegExp pattern = Ret re -> ToString a = Ret s ->
                evaluateCondition c input = Ret (VBool (test re s)))
  /\ (throws (RegExp pattern) \/ throws (ToString a) ->
      evaluateCondition c input = Ret VFalse)
  /\ (a = VUndefined ->
      evaluateCondition c input =
        Ret (VBool (match RegExp pattern with
                    | Ret re => test re "undefined"
                    | Throw _ => false
                    end))
      /\ (forall re, RegExp pattern = Ret re -> test re "undefined" = true ->
                     evaluateCondition c input = Ret VTrue)
      /\ (forall c' operand,
            is_leaf c' f (VStr "eq") operand ->
            evaluateCondition c' input
            = Ret (VBool (strict_equal VUndefined operand))
            /\ (operand <> VUndefined -> evaluateCondition c' input = Ret VFalse)
            /\ (operand = VUndefined -> evaluateCondition c' input = Ret VTrue))).
Proof.
  intros Hleaf Ha.
  pose proof (regex_leaf _ _ _ _ _ Hleaf Ha) as Hre.
  unfold regex_answer in Hre.
  split; [|split].
  - intros re s Hp Hs. now rewrite Hre, Hp, Hs.
  - intros [[e Hp]|[e Hs]]; rewrite Hre.
    + now rewrite Hp.
    + rewrite Hs. now destruct (RegExp pattern).
  - intros ->. cbn [ToString PrimToString] in Hre.
    split; [exact Hre|]. split.
    + intros re Hp Ht. now rewrite Hre, Hp, Ht.
    + intros c' operand Hleaf'.
      pose proof (eq_leaf c' input VUndefined f operand Hleaf' Ha) as Heq.
      split; [exact Heq|]. split.
      * intros Hv. now rewrite Heq, strict_equal_undefined.
      * intros ->. exact Heq.
Qed.

End Leaves.

(* --------------------------------------------------------------------- *)
(** ** Field resolution *)
(* --------------------------------------------------------------------- *)

Section Resolution.
Context {H : Host}.









End Resolution.

(* --------------------------------------------------------------------- *)
(** ** Compound conditions *)
(* --------------------------------------------------------------------- *)

Section Compounds.
Context {H : Host}.

Lemma compound_eq (c input o : value) (ops : list value) :
  prop c "operator" = Ret o -> truthy o = true ->
  prop c "operands" = Ret (VArr ops) ->
  evaluateCondition c input =
  (results <- mapM (fun op => evaluateCondition op input) ops ;;
   if strict_equal o (VStr "AND") then Ret (VBool (forallb is_true_value results))
   else if strict_equal o (VStr "OR") then Ret (VBool (existsb is_true_value results))
   else Ret VFalse).
Proof.
  intros Ho Ht Hops. rewrite evaluateCondition_unfold.
  unfold evaluateCondition_body. rewrite Ho. cbn [bind].
  rewrite Ht, Hops. reflexivity.
Qed.

Lemma strict_equal_str (o : value) (s : string) :
  o <> VStr s -> strict_equal o (VStr s) = false.
Proof.
  destruct o; simpl; try reflexivity. intros Hne.
  apply String.eqb_neq. congruence.
Qed.

(** Compounds, as the code has them.  For every input, a compound with
    an empty operands list evaluates to the identity of its operator:
    AND to [true], OR to [false].  A node whose operator is truthy and is
    neither AND nor OR evaluates to [false] when its operands are not an
    array or all evaluate, and throws when one of them throws.  A node
    whose operator is falsy (the empty string, 0, [false], [null]) is not
    a compound: it is evaluated as a leaf, and throws unless it has a
    string [field]. *)
Theorem compound_identity_and_unknown_operator (c input : value) :
  (prop c "operator" = Ret (VStr "AND") -> prop c "operands" = Ret (VArr []) ->
   evaluateCondition c input = Ret VTrue)
  /\ (prop c "operator" = Ret (VStr "OR") -> prop c "operands" = Ret (VArr []) ->
      evaluateCondition c input = Ret VFalse)
  /\ (forall o, prop c "operator" = Ret o -> truthy o = true ->
        o <> VStr "AND" -> o <> VStr "OR" ->
        (forall v, prop c "operands" = Ret v -> isArray v = false ->
                   evaluateCondition c input = Ret VFalse)
        /\ (forall ops, prop c "operands" = Ret (VArr ops) ->
              Forall (fun op => returns (evaluateCondition op input)) ops ->
              evaluateCondition c input = Ret VFalse)
        /\ (forall ops, prop c "operands" = Ret (VArr ops) ->
              Exists (fun op => throws (evaluateCondition op input)) ops ->
              throws (evaluateCondition c input)))
  /\ (forall o fld, prop c "operator" = Ret o -> truthy o = false ->
        prop c "field" = Ret fld -> (forall s, fld <> VStr s) ->
        throws (evaluateCondition c input)).
Proof.
  split; [|split; [|split]].
  - intros Ho Hops. now rewrite (compound_eq c input _ [] Ho eq_refl Hops).
  - intros Ho Hops. now rewrite (compound_eq c input _ [] Ho eq_refl Hops).
  - intros o Ho Ht Hand Hor. split; [|split].
    + intros v Hv Harr. rewrite evaluateCondition_unfold.
      unfold evaluateCondition_body. rewrite Ho. cbn [bind]. rewrite Ht, Hv.
      cbn [bind]. now destruct v.
    + intros ops Hops Hall. rewrite (compound_eq c input o ops Ho Ht Hops).
      destruct (mapM_returns _ _ Hall) as [results ->]. cbn [bind].
      now rewrite (strict_equal_str _ _ Hand), (strict_equal_str _ _ Hor).
    + intros ops Hops Hex. rewrite (compound_eq c input o ops Ho Ht Hops).
      destruct (mapM_throws _ _ Hex) as [e ->]. now exists e.
  - intros o fld Ho Hf Hfld Hns. rewrite evaluateCondition_unfold.
    unfold evaluateCondition_body. rewrite Ho. cbn [bind]. rewrite Hf, Hfld.
    cbn [bind]. rewrite !(prop_total _ _ _ _ Ho). cbn [bind].
    unfold getValue, throws.
    destruct fld; try (eexists; reflexivity). now destruct (Hns s).
Qed.

End Compounds.

(* --------------------------------------------------------------------- *)
(** ** The decision service *)
(* --------------------------------------------------------------------- *)

Section Decisions.
Context {H : Host}.

Lemma validateInput_well_formed (input : value) :
  well_formed_request input = true -> validateInput input = Ret Valid.
Proof.
  unfold well_formed_request, validateInput. intros Hw.
  apply andb_prop in Hw as [Hw Hs]. apply andb_prop in Hw as [Hi Hr].
  rewrite object_test, Hi. cbn [negb].
  rewrite (prop_field input) by now apply is_object_nullish. cbn [bind].
  rewrite object_test, Hr. cbn [negb].
  rewrite (prop_field input) by now apply is_object_nullish. cbn [bind].
  now rewrite object_test, Hs.
Qed.

Lemma validateInput_ill_formed (input : value) :
  well_formed_request input = false ->
  exists msg, validateInput input = Ret (Invalid msg).
Proof.
  unfold well_formed_request, validateInput. intros Hw.
  rewrite object_test.
  destruct (is_object input) eqn:Hi; cbn [negb]; [|eauto].
  rewrite (prop_field input) by now apply is_object_nullish. cbn [bind].
  rewrite object_test.
  destruct (is_object (field_of input "request")); cbn [negb]; [|eauto].
  rewrite (prop_field input) by now apply is_object_nullish. cbn [bind].
  rewrite object_test.
  destruct (is_object (field_of input "signals")); cbn [negb]; [|eauto].
  discriminate.
Qed.

(** C1, as the code has it. For every input that is not a non-null
    object containing a [request] sub-object and a [signals] sub-object,
    [decide] does not throw: validation answers an error message, and
    [decide] resolves to the error response built from it, whose decision
    is ERROR with source SYSTEM_ERROR.  No rule is evaluated (the
    response carries no rule evaluation, hence no default outcome and no
    evaluation path) and the analyzer is not called. *)
Theorem invalid_input_is_error_response (this : DecisionService)
  (input : value) (requestId : string) :
  well_formed_request input = false ->
  exists msg,
    validateInput input = Ret (Invalid msg)
    /\ decide this input requestId =
       {| response := buildErrorResponse this msg requestId;
          analyzeCalls := [] |}
    /\ final (decision (response (decide this input requestId))) = VStr "ERROR"
    /\ source (decision (response (decide this input requestId)))
       = VStr "SYSTEM_ERROR"
    /\ ruleEvaluation (response (decide this input requestId)) = None.
Proof.
  intros Hw. destruct (validateInput_ill_formed input Hw) as [msg Hv].
  exists msg. unfold decide. rewrite Hv. repeat split.
Qed.

Lemma strict_equal_str_true (o : value) (s : string) :
  strict_equal o (VStr s) = true <-> o = VStr s.
Proof.
  destruct o; simpl; split; try discriminate.
  - intros Heq. apply String.eqb_eq in Heq. now subst.
  - intros Heq. inv Heq. apply String.eqb_refl.
Qed.

Lemma needsAI_iff (this : DecisionService) (r : EvaluationResult) :
  needsAI this r = true <->
  outcome r = VStr "GREY_ZONE" /\ version this = "v2"
  /\ @isEnabled (aiAnalyzer this) = true.
Proof.
  unfold needsAI, GREY_ZONE.
  rewrite !andb_true_iff, strict_equal_str_true, String.eqb_eq. tauto.
Qed.






End Decisions.

(* ===================================================================== *)
(** * Further properties of the engine and of the service *)
(* ===================================================================== *)

(* --------------------------------------------------------------------- *)
(** ** Conditions: compounds, the registry, paths *)
(* --------------------------------------------------------------------- *)

Section MoreConditions.
Context {H : Host}.

Lemma mapM_Forall2 {A B : Type} (f : A -> completion B) (l : list A)
  (rs : list B) :
  mapM f l = Ret rs -> Forall2 (fun x r => f x = Ret r) l rs.
Proof.
  revert rs. induction l as [|x l IH]; simpl; intros rs Hm.
  - inv Hm. constructor.
  - apply bind_ret in Hm as (y & Hy & Hm).
    apply bind_ret in Hm as (ys & Hys & Hm). inv Hm.
    constructor; auto.
Qed.

Lemma is_true_value_iff (r : value) : is_true_value r = true <-> r = VTrue.
Proof.
  unfold is_true_value, VTrue.
  destruct r as [| |[]| | | | |]; simpl; split; congruence.
Qed.

Lemma forallb_results (f : value -> completion value) (l rs : list value) :
  Forall2 (fun x r => f x = Ret r) l rs ->
  forallb is_true_value rs = true <-> Forall (fun x => f x = Ret VTrue) l.
Proof.
  induction 1 as [|x r l rs Hx _ IH]; simpl.
  - split; auto.
  - rewrite andb_true_iff, IH, is_true_value_iff. split.
    + intros [-> Hl]. now constructor.
    + intros Hall. inv Hall. split; [congruence|assumption].
Qed.

Lemma existsb_results (f : value -> completion value) (l rs : list value) :
  Forall2 (fun x r => f x = Ret r) l rs ->
  existsb is_true_value rs = true <-> Exists (fun x => f x = Ret VTrue) l.
Proof.
  induction 1 as [|x r l rs Hx _ IH]; simpl.
  - split; [discriminate|intros Hex; inv Hex].
  - rewrite orb_true_iff, IH, is_true_value_iff. split.
    + intros [-> |Hl]; [now left|now right].
    + intros Hex. inv Hex; [left; congruence|now right].
Qed.

(** X1. A compound whose operands all evaluate answers a boolean: under
    AND it is [true] exactly when every operand evaluates to [true],
    under OR exactly when some operand does.  An operand counts only if
    its result is the boolean [true] itself. *)
Theorem compound_and_or_of_operands (c input : value) (ops : list value) :
  prop c "operands" = Ret (VArr ops) ->
  Forall (fun op => returns (evaluateCondition op input)) ops ->
  (prop c "operator" = Ret (VStr "AND") ->
   exists b, evaluateCondition c input = Ret (VBool b)
             /\ (b = true <->
                 Forall (fun op => evaluateCondition op input = Ret VTrue) ops))
  /\ (prop c "operator" = Ret (VStr "OR") ->
      exists b, evaluateCondition c input = Ret (VBool b)
                /\ (b = true <->
                    Exists (fun op => evaluateCondition op input = Ret VTrue) ops)).
Proof.
  intros Hops Hall.
  destruct (mapM_returns _ _ Hall) as [results Hres].
  pose proof (mapM_Forall2 _ _ _ Hres) as Hf2.
  split; intros Ho; rewrite (compound_eq c input _ ops Ho eq_refl Hops), Hres;
    cbn [bind]; eexists; (split; [reflexivity|]).
  - now apply forallb_results.
  - now apply (existsb_results (fun op => evaluateCondition op input)).
Qed.

(** X2. A compound evaluates every operand before it looks at its
    operator: if an operand throws, the compound throws, whatever the
    operator and whatever the operands before it answered (no
    short-circuit). *)
Theorem compound_evaluates_every_operand (c input o : value)
  (ops : list value) :
  prop c "operator" = Ret o -> truthy o = true ->
  prop c "operands" = Ret (VArr ops) ->
  Exists (fun op => throws (evaluateCondition op input)) ops ->
  throws (evaluateCondition c input).
Proof.
  intros Ho Ht Hops Hex. rewrite (compound_eq c input o ops Ho Ht Hops).
  destruct (mapM_throws _ _ Hex) as [e ->]. now exists e.
Qed.

(** X3. A leaf whose operator names nothing in the registry, nor on the
    prototype chain of the registry object, is no match: it answers
    [false] for every value its path resolves to. *)
Theorem unknown_leaf_operator_is_no_match (c input a op operand v : value)
  (f key : string) :
  is_leaf c f op operand ->
  getValue input (VStr f) = Ret a ->
  ToString op = Ret key ->
  assoc key OPERATORS = None ->
  proto_get (VObj []) key = Ret v -> truthy v = false ->
  evaluateCondition c input = Ret VFalse.
Proof.
  intros Hleaf Ha Hkey Hnone Hproto Hv.
  rewrite (evaluateCondition_leaf _ _ _ _ _ Hleaf), Ha. cbn [bind].
  unfold OPERATORS_get. rewrite Hkey. cbn [bind]. rewrite Hnone, Hproto.
  cbn [bind defined]. now rewrite Hv.
Qed.

Lemma registry_operators (name : string) (compare : operator) :
  assoc name OPERATORS = Some compare ->
  In compare [op_eq; op_neq; op_gt; op_gte; op_lt; op_lte; op_in; op_nin;
              op_exists; op_regex].
Proof.
  unfold OPERATORS, assoc. intros Hc.
  repeat match type of Hc with
         | (if ?t then _ else _) = _ =>
             destruct t; [inv Hc; simpl; auto 12|]
         end.
  discriminate.
Qed.

Lemma registry_operator_boolean (compare : operator) (a b : value) :
  In compare [op_eq; op_neq; op_gt; op_gte; op_lt; op_lte; op_in; op_nin;
              op_exists; op_regex] ->
  exists r, try_catch (compare a b) (fun _ => Ret VFalse) = Ret (VBool r).
Proof.
  simpl. intros Hin.
  repeat match type of Hin with
         | _ \/ _ => destruct Hin as [<-|Hin]
         end; try contradiction;
    try (eexists; reflexivity); try apply try_lift_bool.
  unfold op_regex. destruct (RegExp b) as [re|e]; cbn [bind try_catch].
  - destruct (ToString a) as [s|e]; cbn [bind try_catch].
    + now eexists.
    + now exists false.
  - now exists false.
Qed.

(** X4. Whenever a compound returns, it returns a boolean; and a leaf
    whose operator is one of the ten of the registry returns a boolean
    for every value its path resolves to, and does not throw: a
    comparison that throws (an invalid pattern, an operand that cannot
    be converted) is no match. *)
Theorem condition_answers_boolean (c input : value) :
  (forall o v, prop c "operator" = Ret o -> truthy o = true ->
               evaluateCondition c input = Ret v -> exists b, v = VBool b)
  /\ (forall f name operand compare a,
        is_leaf c f (VStr name) operand ->
        assoc name OPERATORS = Some compare ->
        getValue input (VStr f) = Ret a ->
        exists b, evaluateCondition c input = Ret (VBool b)).
Proof.
  split.
  - intros o v Ho Ht. rewrite evaluateCondition_unfold.
    unfold evaluateCondition_body. rewrite Ho. cbn [bind]. rewrite Ht.
    rewrite (prop_total _ _ _ _ Ho). cbn [bind].
    destruct (field_of c "operands") as [| | | | | ops | |];
      try (intros Hv; inv Hv; now exists false).
    destruct (mapM _ ops) as [results|e]; cbn [bind]; [|discriminate].
    destruct (strict_equal o (VStr "AND")); [intros Hv; inv Hv; eauto|].
    destruct (strict_equal o (VStr "OR")); intros Hv; inv Hv; eauto.
    now exists false.
  - intros f name operand compare a Hleaf Hcmp Ha.
    rewrite (evaluateCondition_own _ _ _ _ _ _ _ Hleaf Hcmp Ha).
    apply registry_operator_boolean. eapply registry_operators, Hcmp.
Qed.

(** X5. On one field and one operand, [neq] answers the negation of
    [eq].  [nin] answers the negation of [in] when the operand is an
    array; when it is not, both answer [false]. *)
Theorem negated_operators (input a operand : value) (f : string)
  (ceq cneq cin cnin : value) :
  getValue input (VStr f) = Ret a ->
  is_leaf ceq f (VStr "eq") operand -> is_leaf cneq f (VStr "neq") operand ->
  is_leaf cin f (VStr "in") operand -> is_leaf cnin f (VStr "nin") operand ->
  (exists b, evaluateCondition ceq input = Ret (VBool b)
             /\ evaluateCondition cneq input = Ret (VBool (negb b)))
  /\ (isArray operand = true ->
      exists b, evaluateCondition cin input = Ret (VBool b)
                /\ evaluateCondition cnin input = Ret (VBool (negb b)))
  /\ (isArray operand = false ->
      evaluateCondition cin input = Ret VFalse
      /\ evaluateCondition cnin input = Ret VFalse).
Proof.
  intros Ha Heq Hneq Hin Hnin.
  rewrite (evaluateCondition_own _ _ _ _ _ _ op_eq Heq eq_refl Ha).
  rewrite (evaluateCondition_own _ _ _ _ _ _ op_neq Hneq eq_refl Ha).
  rewrite (evaluateCondition_own _ _ _ _ _ _ op_in Hin eq_refl Ha).
  rewrite (evaluateCondition_own _ _ _ _ _ _ op_nin Hnin eq_refl Ha).
  unfold op_eq, op_neq, op_in, op_nin. cbn [try_catch].
  split; [eauto|]. split.
  - destruct operand; try discriminate. eauto.
  - destruct operand; try discriminate; auto.
Qed.

(** X6. [exists] with the flag [true] matches exactly the values that
    are neither [undefined] nor [null]; with any other flag (the boolean
    [false], but also the text "true", a number, or no flag at all) it
    matches exactly [undefined] and [null]. *)
Theorem exists_reads_only_the_flag_true (c input a flag : value) (f : string) :
  is_leaf c f (VStr "exists") flag ->
  getValue input (VStr f) = Ret a ->
  (flag = VTrue -> evaluateCondition c input = Ret (VBool (negb (nullish a))))
  /\ (flag <> VTrue -> evaluateCondition c input = Ret (VBool (nullish a))).
Proof.
  intros Hleaf Ha.
  rewrite (evaluateCondition_own _ _ _ _ _ _ op_exists Hleaf eq_refl Ha).
  unfold op_exists. cbn [try_catch]. split.
  - intros ->. now destruct a.
  - intros Hflag.
    assert (strict_equal flag VTrue = false) as ->.
    { destruct flag as [| |[]| | | | |]; try reflexivity. now destruct Hflag. }
    now destruct a.
Qed.

Lemma split_nonempty (sep : ascii) (s : string) : split sep s <> [].
Proof.
  destruct s as [|c s]; simpl; [discriminate|].
  destruct (Ascii.eqb c sep); [discriminate|].
  destruct (split sep s); discriminate.
Qed.

Lemma split_append (sep : ascii) (p q : string) :
  split sep (p ++ String sep q) = split sep p ++ split sep q.
Proof.
  induction p as [|c p IH]; simpl.
  - now rewrite Ascii.eqb_refl.
  - destruct (Ascii.eqb c sep); [now rewrite IH|].
    rewrite IH. pose proof (split_nonempty sep p) as Hne.
    destruct (split sep p); [contradiction|reflexivity].
Qed.

Lemma reduce_app (f : value -> string -> completion value)
  (k1 k2 : list string) (acc : value) :
  reduce f (k1 ++ k2) acc = (v <- reduce f k1 acc ;; reduce f k2 v).
Proof.
  revert acc. induction k1 as [|k k1 IH]; simpl; intros acc; [reflexivity|].
  destruct (f acc k) as [v|e]; cbn [bind]; auto.
Qed.

(** X7. Paths compose: resolving [p.q] from an object is resolving [q]
    from what [p] resolves to. *)
Theorem getValue_composes (obj v : value) (p q : string) :
  getValue obj (VStr p) = Ret v ->
  getValue obj (VStr (p ++ "." ++ q)) = getValue v (VStr q).
Proof.
  unfold getValue. intros Hp.
  change (p ++ "." ++ q)%string with (p ++ String "."%char q)%string.
  now rewrite split_append, reduce_app, Hp.
Qed.

End MoreConditions.

(* --------------------------------------------------------------------- *)
(** ** Evaluation and loading: what a result means, what a load keeps *)
(* --------------------------------------------------------------------- *)

Section MoreEvaluation.
Context {H : Host}.

(** X8. Whatever [evaluate] returns on an object is explained by the
    rules: either no rule is matched, every rule was evaluated and did
    not match, and the outcome is the configured default; or the rules
    split at a first matching rule whose outcome and identity the result
    carries.  The path holds one attempt per rule considered and nothing
    else, so it is never longer than the rule list. *)
Theorem evaluate_result_explained (this : RuleEngine) (input : value)
  (r : EvaluationResult) :
  is_object input = true ->
  evaluate this input = Ret r ->
  ((matchedRule r = None
    /\ Forall (no_match input) (rules this)
    /\ prop (defaults this) "no_match_outcome" = Ret (outcome r)
    /\ evaluationPath r = map (attempt_of input) (rules this))
   \/ (exists before rule after m,
         rules this = before ++ rule :: after
         /\ Forall (no_match input) before
         /\ rule_result rule input = Ret m /\ truthy m = true
         /\ outcome r = field_of rule "outcome"
         /\ matchedRule r = Some (identity_of rule)
         /\ evaluationPath r =
            map (attempt_of input) before
            ++ [Attempt (field_of rule "id") (field_of rule "name") m]))
  /\ List.length (evaluationPath r) <= List.length (rules this).
Proof.
  intros Hobj Hr. unfold evaluate in Hr.
  rewrite object_test, Hobj in Hr. simpl in Hr.
  destruct (evaluate_rules_explained _ _ _ _ _ Hr)
    as [(Hnone & Hall & Hd & Hpath)
       |(before & rule & after & m & Hsplit & Hall & Hm & Ht & Ho & Hid & Hpath)];
    simpl in Hpath.
  - split; [left; auto|]. now rewrite Hpath, length_map.
  - split; [right; exists before, rule, after, m; auto 10|].
    rewrite Hpath, Hsplit, !length_app, length_map. simpl. lia.
Qed.

Lemma evaluate_rules_throw (this : RuleEngine) (input rule : value)
  (after : list value) (e : exn) :
  rule_result rule input = Throw e ->
  forall before path,
    Forall (no_match input) before ->
    evaluate_rules this input (before ++ rule :: after) path = Throw e.
Proof.
  intros He before. induction before as [|r before IH]; intros path Hall.
  - simpl. unfold rule_result in He.
    destruct (prop rule "condition") as [c|e']; cbn [bind] in *;
      [|congruence].
    now rewrite He.
  - inv Hall. destruct H2 as (v & Hv & Hf).
    apply rule_result_ret in Hv as (Hn & Hc & Hv).
    simpl. rewrite Hc. cbn [bind]. rewrite Hv. cbn [bind].
    rewrite !(prop_field r) by assumption. cbn [bind].
    rewrite Hf. now apply IH.
Qed.

Lemma active_not_nullish (r : value) : active r = true -> nullish r = false.
Proof. now destruct r. Qed.

(** What a successful load leaves in [rules]. *)
Lemma loaded_rules (source : completion value) (this this' : RuleEngine) :
  loadRules source this = (Ret true, this') ->
  exists config,
    source = Ret config
    /\ Permutation (rules this') (filter active (source_rules config))
    /\ Forall (fun r => active r = true) (rules this')
    /\ this' = loaded config (rules this') this.
Proof.
  intros Hload.
  destruct (loadRules_all_or_nothing source this)
    as [(e & He & _)|(config & sorted & Hc & Ha & Hok)]; [congruence|].
  rewrite Hok in Hload. inv Hload. exists config. simpl.
  pose proof (active_rules_perm _ _ Ha) as Hperm.
  repeat split; auto.
  rewrite Forall_forall. intros r Hr.
  apply (Permutation_in _ Hperm) in Hr. now apply filter_In in Hr.
Qed.

(** X9. After a successful load, a matched rule always carries one of
    the three outcomes and a truthy id: [evaluate] cannot report a match
    with any other outcome, whatever the configuration held. *)
Theorem matched_outcome_is_one_of_three (source : completion value)
  (this this' : RuleEngine) (input : value) (r : EvaluationResult)
  (m : MatchedRule) :
  loadRules source this = (Ret true, this') ->
  evaluate this' input = Ret r ->
  matchedRule r = Some m ->
  outcome_valid (outcome r) = true /\ truthy (id m) = true.
Proof.
  intros Hload Hr Hm.
  destruct (loaded_rules _ _ _ Hload) as (config & _ & _ & Hall & _).
  unfold evaluate in Hr.
  destruct (negb (truthy input) || negb (String.eqb (typeof input) "object")).
  - apply bind_ret in Hr as (o & _ & Hr). inv Hr. discriminate.
  - destruct (evaluate_rules_explained _ _ _ _ _ Hr)
      as [(Hnone & _)
         |(before & rule & after & v & Hsplit & _ & _ & _ & Ho & Hid & _)];
      [congruence|].
    rewrite Forall_forall in Hall.
    assert (active rule = true) as Hact.
    { apply Hall. rewrite Hsplit. apply in_elt. }
    rewrite Hid in Hm. inv Hm. rewrite Ho. simpl.
    unfold active in Hact.
    apply andb_prop in Hact as [Hact _]. apply andb_prop in Hact as [Hact Hout].
    apply andb_prop in Hact as [Hidt _]. auto.
Qed.

Lemma getRules_active (this : RuleEngine) :
  Forall (fun r => active r = true) (rules this) ->
  exists infos,
    getRules this = Ret infos
    /\ List.length infos = List.length (rules this)
    /\ Forall (fun i => info_enabled i = true
                        /\ outcome_valid (info_outcome i) = true
                        /\ truthy (info_id i) = true) infos.
Proof.
  unfold getRules. induction 1 as [|r l Hr _ (infos & Hi & Hlen & Hall)]; simpl.
  - exists []. repeat split; constructor.
  - rewrite !(prop_field r) by now apply active_not_nullish. cbn [bind].
    rewrite Hi. cbn [bind]. eexists. split; [reflexivity|].
    split; [simpl; congruence|]. constructor; [|assumption]. simpl.
    unfold active in Hr.
    apply andb_prop in Hr as [Hr Hen]. apply andb_prop in Hr as [Hr Hout].
    apply andb_prop in Hr as [Hid _]. repeat split; auto.
Qed.

(** X10. After a successful load [getRules] does not throw and lists one
    entry per active rule; every entry is reported as enabled, with one
    of the three outcomes and a truthy id. *)
Theorem getRules_after_load (source : completion value)
  (this this' : RuleEngine) :
  loadRules source this = (Ret true, this') ->
  exists infos,
    getRules this' = Ret infos
    /\ List.length infos = List.length (rules this')
    /\ Forall (fun i => info_enabled i = true
                        /\ outcome_valid (info_outcome i) = true
                        /\ truthy (info_id i) = true) infos.
Proof.
  intros Hload.
  destruct (loaded_rules _ _ _ Hload) as (config & _ & _ & Hall & _).
  now apply getRules_active.
Qed.

Lemma reloadRules_loaded (source : completion value) (this : DecisionService)
  (engine' : RuleEngine) :
  loadRules source (ruleEngine this) = (Ret true, engine') ->
  reloadRules source this =
  ({| success := true;
      rulesCount := Some (List.length (rules engine'));
      reload_error := None |},
   set_ruleEngine engine' this).
Proof.
  intros Hload. unfold reloadRules. rewrite Hload.
  destruct (loaded_rules _ _ _ Hload) as (config & _ & _ & Hall & _).
  destruct (getRules_active engine' Hall) as (infos & -> & Hlen & _).
  cbn [bind]. now rewrite Hlen.
Qed.

(** X11. When the load succeeds, [reloadRules] answers [success: true]
    with the number of active rules of the configuration (the source
    rules that pass the filter), and the service runs on the loaded
    engine: reading the rules back cannot fail after a load. *)
Theorem reloadRules_counts_active_rules (config : value)
  (this : DecisionService) (engine' : RuleEngine) :
  loadRules (Ret config) (ruleEngine this) = (Ret true, engine') ->
  reloadRules (Ret config) this =
  ({| success := true;
      rulesCount :=
        Some (List.length (filter active (source_rules config)));
      reload_error := None |},
   set_ruleEngine engine' this).
Proof.
  intros Hload. rewrite (reloadRules_loaded _ _ _ Hload).
  destruct (loaded_rules _ _ _ Hload) as (config' & Hc & Hperm & _).
  inv Hc. now rewrite (Permutation_length Hperm).
Qed.

(** X12. A successful load replaces the engine's state and merges
    nothing: what it leaves depends on the configuration and on the
    configuration path only, so it is the same from any earlier state,
    and loading the same configuration again changes nothing. *)
Theorem loadRules_forgets_earlier_state (source : completion value)
  (this other this' : RuleEngine) :
  loadRules source this = (Ret true, this') ->
  configPath other = configPath this ->
  loadRules source other = (Ret true, this')
  /\ loadRules source this' = (Ret true, this').
Proof.
  intros Hload Hpath.
  destruct (loadRules_all_or_nothing source this)
    as [(e & He & _)|(config & sorted & Hc & Ha & Hok)]; [congruence|].
  rewrite Hok in Hload. inv Hload.
  assert (forall eng, configPath eng = configPath this ->
                      loadRules (Ret config) eng
                      = (Ret true, loaded config sorted this)) as Hany.
  { intros eng Heng.
    destruct (loadRules_all_or_nothing (Ret config) eng)
      as [(e & _ & [Hs|(c & Hs & Ht)])|(c & s & Hs & Ha' & Hok')].
    - discriminate.
    - inv Hs. congruence.
    - inv Hs. rewrite Hok'. unfold loaded. rewrite Heng. congruence. }
  split; apply Hany; [assumption|reflexivity].
Qed.

End MoreEvaluation.

(* --------------------------------------------------------------------- *)
(** ** The decision service and its routes *)
(* --------------------------------------------------------------------- *)

Section MoreDecisions.
Context {H : Host}.
Import Routes.

Lemma validateInput_cases (input : value) :
  (well_formed_request input = true /\ validateInput input = Ret Valid)
  \/ (well_formed_request input = false
      /\ exists msg, validateInput input = Ret (Invalid msg)).
Proof.
  destruct (well_formed_request input) eqn:Hw.
  - left. split; [reflexivity|]. now apply validateInput_well_formed.
  - right. split; [reflexivity|]. now apply validateInput_ill_formed.
Qed.

Lemma buildResponse_shape (this : DecisionService) (rr : EvaluationResult)
  (insight combined : value) (requestId : string) (r : Response) :
  buildResponse this rr insight combined requestId = Ret r ->
  error r = None
  /\ ruleEvaluation r = Some {| rule_outcome := outcome rr;
                                rule_matchedRule := matchedRule rr |}
  /\ meta r = {| meta_version := version this; meta_requestId := requestId |}
  /\ exists a, aiAnalysis r = Some a
               /\ ((exists x, prop insight "analyzed" = Ret x /\ truthy x = false)
                   -> a = VNull).
Proof.
  unfold buildResponse. intros Hr.
  apply bind_ret in Hr as (analysis & Han & Hr).
  apply bind_ret in Hr as (f & _ & Hr).
  apply bind_ret in Hr as (s & _ & Hr).
  apply bind_ret in Hr as (c & _ & Hr). inv Hr. simpl.
  repeat split. exists analysis. split; [reflexivity|].
  intros (x & Hx & Hf). rewrite Hx in Han. cbn [bind] in Han. rewrite Hf in Han.
  destruct (truthy insight); congruence.
Qed.

(** The [try] block of [decide]: its calls of [analyze], and the shape
    of the response it builds when nothing throws. *)
Lemma decide_valid_cases (this : DecisionService) (input : value)
  (requestId : string) (c : completion Response)
  (calls : list (value * EvaluationResult)) :
  decide_valid this input requestId = (c, calls) ->
  (calls = []
   \/ exists rr, calls = [(input, rr)]
                 /\ evaluate (ruleEngine this) input = Ret rr
                 /\ needsAI this rr = true)
  /\ (forall r, c = Ret r ->
        exists rr,
          evaluate (ruleEngine this) input = Ret rr
          /\ error r = None
          /\ ruleEvaluation r = Some {| rule_outcome := outcome rr;
                                        rule_matchedRule := matchedRule rr |}
          /\ meta r = {| meta_version := version this;
                         meta_requestId := requestId |}
          /\ exists a, aiAnalysis r = Some a /\ (calls = [] -> a = VNull)).
Proof.
  unfold decide_valid.
  destruct (evaluate (ruleEngine this) input) as [rr|e] eqn:He.
  - destruct (needsAI this rr) eqn:Hn; intros Heq; inv Heq.
    + split; [right; exists rr; auto|]. intros r Hr.
      apply bind_ret in Hr as (ins & _ & Hr).
      apply bind_ret in Hr as (x & _ & Hr).
      apply bind_ret in Hr as (cd & _ & Hr).
      destruct (buildResponse_shape _ _ _ _ _ _ Hr) as (He' & Hre & Hm & a & Ha & _).
      exists rr. repeat split; auto. exists a. split; [assumption|discriminate].
    + split; [now left|]. intros r Hr.
      apply bind_ret in Hr as (cd & _ & Hr).
      destruct (buildResponse_shape _ _ _ _ _ _ Hr) as (He' & Hre & Hm & a & Ha & Hn').
      exists rr. repeat split; auto. exists a. split; [assumption|].
      intros _. apply Hn'. now exists VFalse.
  - intros Heq. inv Heq. split; [now left|]. discriminate.
Qed.

(** X13. [decide] always resolves to a response, for every service,
    analyzer and input.  The response echoes the service version and the
    request id; it is either an error response, or it carries no error,
    the outcome and the matched rule of the rule evaluation of a
    well-formed request, and an analysis entry that is [null] whenever
    the analyzer was not called.  The analyzer is called at most once,
    with the input and the rule result, and only on a GREY_ZONE outcome
    of a v2 service whose analyzer is enabled. *)
Theorem decide_answers_error_or_evaluation (this : DecisionService)
  (input : value) (requestId : string) :
  exists r calls,
    decide this input requestId = {| response := r; analyzeCalls := calls |}
    /\ meta r = {| meta_version := version this; meta_requestId := requestId |}
    /\ ((exists msg, r = buildErrorResponse this msg requestId)
        \/ (exists rr,
              well_formed_request input = true
              /\ evaluate (ruleEngine this) input = Ret rr
              /\ error r = None
              /\ ruleEvaluation r = Some {| rule_outcome := outcome rr;
                                            rule_matchedRule := matchedRule rr |}
              /\ exists a, aiAnalysis r = Some a /\ (calls = [] -> a = VNull)))
    /\ (calls = []
        \/ exists rr, calls = [(input, rr)]
                      /\ evaluate (ruleEngine this) input = Ret rr
                      /\ outcome rr = VStr "GREY_ZONE"
                      /\ version this = "v2"
                      /\ @isEnabled (aiAnalyzer this) = true).
Proof.
  unfold decide.
  destruct (validateInput_cases input) as [[Hw ->]|[Hw (msg & ->)]].
  - destruct (decide_valid this input requestId) as [c calls] eqn:Hd.
    destruct (decide_valid_cases _ _ _ _ _ Hd) as [Hcalls Hresp].
    assert (calls = []
            \/ exists rr, calls = [(input, rr)]
                          /\ evaluate (ruleEngine this) input = Ret rr
                          /\ outcome rr = VStr "GREY_ZONE"
                          /\ version this = "v2"
                          /\ @isEnabled (aiAnalyzer this) = true) as Hgate.
    { destruct Hcalls as [->|(rr & -> & He & Hn)]; [now left|].
      right. exists rr. apply needsAI_iff in Hn. tauto. }
    destruct c as [r|e].
    + exists r, calls. split; [reflexivity|].
      destruct (Hresp r eq_refl) as (rr & He & Herr & Hre & Hm & Ha).
      split; [assumption|]. split; [|assumption].
      right. exists rr. auto.
    + eexists _, calls. split; [reflexivity|].
      split; [reflexivity|]. split; [|assumption]. left. eauto.
  - eexists _, []. split; [reflexivity|].
    split; [reflexivity|]. split; [left; eauto|now left].
Qed.

Lemma evaluate_throw (this : RuleEngine) (input rule : value)
  (before after : list value) (e : exn) :
  is_object input = true ->
  rules this = before ++ rule :: after ->
  Forall (no_match input) before ->
  rule_result rule input = Throw e ->
  evaluate this input = Throw e.
Proof.
  intros Hobj Hsplit Hall He. unfold evaluate.
  rewrite object_test, Hobj, Hsplit. simpl.
  now apply evaluate_rules_throw.
Qed.

(** X14. A rule that cannot be evaluated, reached before any rule has
    matched, fails the whole request: [evaluate] throws what the rule's
    condition throws, and [decide] answers the error response with that
    message, without consulting the analyzer.  Rules after a match are
    never evaluated, so the same rule is harmless behind a matching
    one. *)
Theorem unevaluable_rule_is_error_response (this : DecisionService)
  (input rule : value) (before after : list value) (e : exn)
  (requestId : string) :
  well_formed_request input = true ->
  rules (ruleEngine this) = before ++ rule :: after ->
  Forall (no_match input) before ->
  rule_result rule input = Throw e ->
  evaluate (ruleEngine this) input = Throw e
  /\ decide this input requestId =
     {| response := buildErrorResponse this (message e) requestId;
        analyzeCalls := [] |}.
Proof.
  intros Hw Hsplit Hall He.
  assert (evaluate (ruleEngine this) input = Throw e) as Hev.
  { apply (evaluate_throw _ _ rule before after); auto.
    unfold well_formed_request in Hw.
    apply andb_prop in Hw as [Hw _]. now apply andb_prop in Hw as [Hw _]. }
  split; [assumption|].
  unfold decide, decide_valid.
  now rewrite (validateInput_well_formed _ Hw), Hev.
Qed.

(** X15. A failed analysis is not absorbed: when the analyzer is
    consulted and its call throws (a rejected promise), or answers no
    insight at all ([null] or [undefined]), [decide] answers an error
    response; the rule outcome is not used as a fallback.  The call is
    made once. *)
Theorem failed_analysis_is_error_response (this : DecisionService)
  (input : value) (requestId : string) (rr : EvaluationResult) :
  well_formed_request input = true ->
  evaluate (ruleEngine this) input = Ret rr ->
  outcome rr = VStr "GREY_ZONE" ->
  version this = "v2" ->
  @isEnabled (aiAnalyzer this) = true ->
  (forall e, @analyze (aiAnalyzer this) input rr = Throw e ->
             decide this input requestId =
             {| response := buildErrorResponse this (message e) requestId;
                analyzeCalls := [(input, rr)] |})
  /\ (forall insight, @analyze (aiAnalyzer this) input rr = Ret insight ->
                      nullish insight = true ->
                      decide this input requestId =
                      {| response :=
                           buildErrorResponse this
                             (message (cannot_read insight "analyzed")) requestId;
                         analyzeCalls := [(input, rr)] |}).
Proof.
  intros Hw He Ho Hv Hen.
  assert (needsAI this rr = true) as Hn by (apply needsAI_iff; auto).
  unfold decide, decide_valid, analyze_call.
  rewrite (validateInput_well_formed _ Hw), He, Hn. cbn [fst snd].
  split.
  - intros e ->. reflexivity.
  - intros insight -> Hnull. cbn [bind].
    destruct insight; try discriminate; reflexivity.
Qed.

(** X16. [POST /decide] calls [decide] without a request id, so every
    response carries the id "unknown".  The status is 200 or 500; an
    ill-formed request and every error response get 500, and a 200
    always carries the rule evaluation of the request and no error. *)
Theorem post_decide_status (this : DecisionService) (input : value) :
  meta_requestId (meta (body (post_decide this input))) = "unknown"
  /\ (status_code (post_decide this input) = 200
      \/ status_code (post_decide this input) = 500)
  /\ (well_formed_request input = false ->
      status_code (post_decide this input) = 500)
  /\ (error (body (post_decide this input)) <> None ->
      status_code (post_decide this input) = 500)
  /\ (status_code (post_decide this input) = 200 ->
      exists rr,
        evaluate (ruleEngine this) input = Ret rr
        /\ error (body (post_decide this input)) = None
        /\ ruleEvaluation (body (post_decide this input))
           = Some {| rule_outcome := outcome rr;
                     rule_matchedRule := matchedRule rr |}).
Proof.
  unfold post_decide, decide. cbn [status_code body].
  destruct (validateInput_cases input) as [[Hw ->]|[Hw (msg & ->)]].
  - destruct (decide_valid this input "unknown") as [c calls] eqn:Hd.
    destruct (decide_valid_cases _ _ _ _ _ Hd) as [_ Hresp].
    destruct c as [r|e]; cbn [response].
    + destruct (Hresp r eq_refl) as (rr & He & Herr & Hre & Hm & _).
      rewrite Hm, Herr. cbn [meta_requestId].
      split; [reflexivity|].
      split; [destruct (strict_equal _ _); auto|].
      split; [congruence|]. split; [congruence|].
      intros _. exists rr. auto.
    + simpl. repeat split; auto; discriminate.
  - simpl. repeat split; auto; discriminate.
Qed.

End MoreDecisions.

(* --------------------------------------------------------------------- *)
(** ** The engine in use: metadata, readiness, reloading *)
(* --------------------------------------------------------------------- *)

Section EngineInUse.
Context {H : Host}.
Import Routes.

Lemma lookup_define_same (k : string) (v : value) (ps : list (string * value)) :
  lookup k (define_property k v ps) = Some v.
Proof.
  induction ps as [|[k' x] ps IH]; simpl.
  - now rewrite String.eqb_refl.
  - destruct (String.eqb k k') eqn:Hk; simpl.
    + now rewrite String.eqb_refl.
    + now rewrite Hk.
Qed.

Lemma lookup_define_other (k k' : string) (v : value)
  (ps : list (string * value)) :
  k' <> k -> lookup k' (define_property k v ps) = lookup k' ps.
Proof.
  intros Hne. apply String.eqb_neq in Hne.
  induction ps as [|[k0 x] ps IH]; simpl.
  - now rewrite Hne.
  - destruct (String.eqb k k0) eqn:Hk; simpl.
    + apply String.eqb_eq in Hk. subst k0. now rewrite Hne.
    + now rewrite IH.
Qed.

Lemma truthy_not_nullish (v : value) : truthy v = true -> nullish v = false.
Proof. now destruct v. Qed.

Lemma or_else_not_nullish (a b : value) :
  nullish b = false -> nullish (or_else a b) = false.
Proof.
  intros Hb. unfold or_else.
  destruct (truthy a) eqn:Ha; [now apply truthy_not_nullish|assumption].
Qed.

(** What holds of an engine at any time of its life. *)
Lemma reachable_invariant (this : RuleEngine) :
  reachable this ->
  nullish (defaults this) = false
  /\ Forall (fun r => active r = true) (rules this).
Proof.
  induction 1 as [path|source this this' r _ [IHd IHr] Hload].
  - split; [reflexivity|constructor].
  - destruct (loadRules_all_or_nothing source this)
      as [(e & He & _)|(config & sorted & Hc & Ha & Hok)].
    + rewrite He in Hload. inv Hload. auto.
    + rewrite Hok in Hload. inv Hload.
      destruct (loaded_rules _ _ _ Hok) as (config' & _ & _ & Hall & _).
      split; [|exact Hall]. simpl. now apply or_else_not_nullish.
Qed.

Lemma getMetadata_rulesCount (this : RuleEngine) :
  nullish (defaults this) = false ->
  exists m,
    getMetadata this = Ret m
    /\ prop m "rulesCount"
       = Ret (VNum (num_of_nat (List.length (rules this)))).
Proof.
  intros Hd. unfold getMetadata.
  rewrite (prop_field (defaults this)) by assumption. cbn [bind].
  eexists. split; [reflexivity|]. simpl.
  rewrite lookup_define_other by discriminate.
  now rewrite lookup_define_same.
Qed.

(** X17. [getMetadata] answers the metadata section with the two
    computed entries written over it: [rulesCount] is the number of
    loaded rules and [defaultOutcome] the engine's default, even when the
    configuration's metadata has entries of these names; every other
    entry is the metadata's own. *)
Theorem getMetadata_overrides (this : RuleEngine) :
  nullish (defaults this) = false ->
  exists ps,
    getMetadata this = Ret (VObj ps)
    /\ lookup "rulesCount" ps
       = Some (VNum (num_of_nat (List.length (rules this))))
    /\ lookup "defaultOutcome" ps
       = Some (field_of (defaults this) "no_match_outcome")
    /\ forall k, k <> "rulesCount" -> k <> "defaultOutcome" ->
                 lookup k ps = lookup k (spread (metadata this)).
Proof.
  intros Hd. unfold getMetadata.
  rewrite (prop_field (defaults this)) by assumption. cbn [bind].
  eexists. split; [reflexivity|]. split; [|split].
  - rewrite lookup_define_other by discriminate. apply lookup_define_same.
  - apply lookup_define_same.
  - intros k Hr Ho. now rewrite !lookup_define_other by assumption.
Qed.

(** X18. An engine in use (constructed, then loaded any number of
    times, successfully or not) can always be read: its default section
    is an object, every loaded rule is active, [getRules] and
    [getMetadata] return, and [evaluate] answers an input that is not an
    object with the default outcome, no matched rule and the path
    [INVALID_INPUT], without evaluating any rule. *)
Theorem engine_in_use_is_readable (this : RuleEngine) :
  reachable this ->
  nullish (defaults this) = false
  /\ Forall (fun r => active r = true) (rules this)
  /\ returns (getRules this)
  /\ returns (getMetadata this)
  /\ forall input,
       is_object input = false ->
       evaluate this input =
       Ret {| outcome := field_of (defaults this) "no_match_outcome";
              matchedRule := None;
              evaluationPath := [Marker "INVALID_INPUT"] |}.
Proof.
  intros Hreach. destruct (reachable_invariant _ Hreach) as [Hd Hall].
  split; [assumption|]. split; [assumption|]. split; [|split].
  - destruct (getRules_active this Hall) as (infos & Hi & _). now exists infos.
  - destruct (getMetadata_rulesCount this Hd) as (m & Hm & _). now exists m.
  - intros input Hobj. unfold evaluate. rewrite object_test, Hobj. simpl.
    now rewrite (prop_field (defaults this)) by assumption.
Qed.

Lemma count_positive (n : nat) :
  greater_than (VNum (num_of_nat n)) (VNum (Fin 0))
  = Ret (negb (Nat.eqb n 0)).
Proof. destruct n; reflexivity. Qed.

(** X19. [GET /ready] on a service whose engine is in use: the answer
    is 200 exactly when the server is not shutting down and at least one
    rule is loaded, and 503 otherwise.  The count it reads and reports
    is the number of loaded rules, whatever the metadata section says. *)
Theorem ready_iff_rules_loaded (isShuttingDown : bool) (a : value)
  (this : DecisionService) (ENGINE_VERSION : string) :
  reachable (ruleEngine this) ->
  nullish a = false ->
  exists reply,
    ready isShuttingDown (Ret a) this ENGINE_VERSION = Ret reply
    /\ (status_code reply = 200 \/ status_code reply = 503)
    /\ (status_code reply = 200 <->
        isShuttingDown = false /\ rules (ruleEngine this) <> [])
    /\ (status_code reply = 200 ->
        body reply =
        {| ready_status := "ready";
           ready_reason := None;
           ready_version := Some ENGINE_VERSION;
           ready_rulesLoaded :=
             Some (VNum (num_of_nat (List.length (rules (ruleEngine this)))));
           ready_aiEnabled := Some (field_of a "enabled") |}).
Proof.
  intros Hreach Ha. destruct (reachable_invariant _ Hreach) as [Hd Hall].
  unfold ready. destruct isShuttingDown.
  - eexists. split; [reflexivity|]. simpl.
    split; [now right|]. split; [|discriminate].
    split; [discriminate|]. now intros [? _].
  - unfold getStatus.
    destruct (getMetadata_rulesCount _ Hd) as (m & -> & Hcount).
    destruct (getRules_active _ Hall) as (infos & -> & _).
    cbn [bind status_ruleEngine status_aiAnalyzer].
    rewrite Hcount. cbn [bind]. rewrite count_positive. cbn [bind].
    destruct (rules (ruleEngine this)) as [|r l] eqn:Hr; simpl.
    + eexists. split; [reflexivity|]. simpl.
      split; [now right|]. split; [|discriminate].
      split; [discriminate|]. now intros [_ ?].
    + rewrite (prop_field a) by assumption. cbn [bind].
      eexists. split; [reflexivity|]. simpl.
      split; [now left|]. split; [|reflexivity].
      split; [|reflexivity]. intros _. split; [reflexivity|discriminate].
Qed.

(** X20. [POST /reload] answers by the load alone.  Either the load
    throws: the answer is 500 with the exception's message and the
    service is the one before the call; or the load succeeds: the answer
    is 200 with the number of active rules of the configuration, and the
    service runs on the loaded engine. *)
Theorem post_reload_reports_load (source : completion value)
  (this : DecisionService) :
  (exists e,
      loadRules source (ruleEngine this) = (Throw e, ruleEngine this)
      /\ post_reload source this =
         ({| status_code := 500;
             body := {| reload_status := "failed";
                        reload_rulesCount := None;
                        reload_failure := Some (message e) |} |}, this))
  \/ (exists config sorted,
        source = Ret config
        /\ active_rules config = Ret sorted
        /\ post_reload source this =
           ({| status_code := 200;
               body := {| reload_status := "reloaded";
                          reload_rulesCount :=
                            Some (List.length
                                    (filter active (source_rules config)));
                          reload_failure := None |} |},
            set_ruleEngine (loaded config sorted (ruleEngine this)) this)).
Proof.
  destruct (loadRules_all_or_nothing source (ruleEngine this))
    as [(e & He & _)|(config & sorted & Hc & Ha & Hok)].
  - left. exists e. split; [assumption|].
    unfold post_reload, reloadRules. rewrite He. simpl.
    now rewrite set_ruleEngine_same.
  - right. exists config, sorted. split; [assumption|]. split; [assumption|].
    unfold post_reload. rewrite (reloadRules_loaded _ _ _ Hok). simpl.
    now rewrite (Permutation_length (active_rules_perm _ _ Ha)).
Qed.

End EngineInUse.

(* --------------------------------------------------------------------- *)
(** ** The provider list *)
(* --------------------------------------------------------------------- *)

Section Providers.
Import Provider.

Lemma environment_field (env : value) (k : string) :
  environment env = true ->
  nullish env = false
  /\ (field_of env k = VUndefined \/ exists s, field_of env k = VStr s).
Proof.
  destruct env as [| | | | | |ps|]; try discriminate. simpl. intros Henv.
  split; [reflexivity|]. unfold field_of. simpl.
  induction ps as [|[k' x] ps IH]; simpl in *; [now left|].
  apply andb_prop in Henv as [Hx Hps].
  destruct (String.eqb k k'); [|now apply IH].
  destruct x; try discriminate. right. eauto.
Qed.

Lemma strict_equal_text (a b : value) :
  (a = VUndefined \/ exists s, a = VStr s) ->
  (b = VUndefined \/ exists s, b = VStr s) ->
  strict_equal a b = true <-> a = b.
Proof.
  intros [->|(s & ->)] [->|(t & ->)]; simpl; split;
    try discriminate; try reflexivity.
  - intros Heq. apply String.eqb_eq in Heq. now subst.
  - intros Heq. inv Heq. apply String.eqb_refl.
Qed.

(** The list as a whole: each of the three statements pushes its entry
    or nothing. *)
Lemma buildAIProviders_closed (env : value) :
  nullish env = false ->
  buildAIProviders env =
  Ret ((if truthy (field_of env "GEMINI_API_KEY")
           && truthy (field_of env "GEMINI_PRIMARY_MODEL")
        then [gemini_entry env (field_of env "GEMINI_PRIMARY_MODEL")] else [])
       ++ (if truthy (field_of env "GEMINI_API_KEY")
              && truthy (field_of env "GEMINI_FALLBACK_MODEL")
              && negb (strict_equal (field_of env "GEMINI_FALLBACK_MODEL")
                                    (field_of env "GEMINI_PRIMARY_MODEL"))
           then [gemini_entry env (field_of env "GEMINI_FALLBACK_MODEL")]
           else [])
       ++ (if truthy (field_of env "CLAUDE_API_KEY")
              && truthy (field_of env "CLAUDE_MODEL")
           then [claude_entry env] else [])).
Proof.
  intros Hn. unfold buildAIProviders, both.
  rewrite !(prop_field env) by assumption. cbn [bind].
  destruct (truthy (field_of env "GEMINI_API_KEY"));
    destruct (truthy (field_of env "GEMINI_PRIMARY_MODEL"));
    destruct (truthy (field_of env "GEMINI_FALLBACK_MODEL"));
    destruct (strict_equal (field_of env "GEMINI_FALLBACK_MODEL")
                           (field_of env "GEMINI_PRIMARY_MODEL"));
    destruct (truthy (field_of env "CLAUDE_API_KEY"));
    destruct (truthy (field_of env "CLAUDE_MODEL")); reflexivity.
Qed.

(** X21. On a process environment [buildAIProviders] returns a list of
    at most three providers, Gemini entries before the Claude entry, in
    which no entry occurs twice.  A Gemini model (primary or fallback)
    is listed exactly when it and the Gemini key are set and not empty,
    so a fallback equal to the primary is listed once and a fallback
    without a primary is listed alone; Claude is listed exactly when its
    key and its model are set and not empty. *)
Theorem buildAIProviders_lists_configured (env : value) :
  environment env = true ->
  exists l,
    buildAIProviders env = Ret l
    /\ In (map provider_name l)
          [ []; ["gemini"]; ["gemini"; "gemini"]; ["claude"];
            ["gemini"; "claude"]; ["gemini"; "gemini"; "claude"] ]
    /\ NoDup l
    /\ (forall m,
          In (gemini_entry env m) l <->
          (m = field_of env "GEMINI_PRIMARY_MODEL"
           \/ m = field_of env "GEMINI_FALLBACK_MODEL")
          /\ truthy m = true
          /\ truthy (field_of env "GEMINI_API_KEY") = true)
    /\ (In (claude_entry env) l <->
        truthy (field_of env "CLAUDE_MODEL") = true
        /\ truthy (field_of env "CLAUDE_API_KEY") = true)
    /\ Forall (fun p => truthy (provider_model p) = true
                        /\ truthy (provider_apiKey p) = true) l.
Proof.
  intros Henv.
  destruct (environment_field env "GEMINI_PRIMARY_MODEL" Henv) as [Hn Hp].
  destruct (environment_field env "GEMINI_FALLBACK_MODEL" Henv) as [_ Hf].
  pose proof (strict_equal_text _ _ Hf Hp) as Hsame.
  rewrite (buildAIProviders_closed env Hn).
  eexists. split; [reflexivity|].
  unfold gemini_entry, claude_entry.
  set (k := field_of env "GEMINI_API_KEY") in *.
  set (p := field_of env "GEMINI_PRIMARY_MODEL") in *.
  set (f := field_of env "GEMINI_FALLBACK_MODEL") in *.
  set (ck := field_of env "CLAUDE_API_KEY") in *.
  set (cm := field_of env "CLAUDE_MODEL") in *.
  clearbody k p f ck cm. clear Hp Hf Henv Hn.
  assert ((strict_equal f p = true /\ f = p)
          \/ (strict_equal f p = false /\ f <> p)) as [[Hs E]|[Hs Hne]].
  { destruct (strict_equal f p).
    - left. split; [reflexivity|]. now apply Hsame.
    - right. split; [reflexivity|]. intros E. apply Hsame in E. discriminate. }
  all: clear Hsame; rewrite Hs; try subst f.
  all: destruct (truthy k) eqn:Hk; destruct (truthy p) eqn:Htp;
    try destruct (truthy f) eqn:Htf;
    destruct (truthy ck) eqn:Hck; destruct (truthy cm) eqn:Hcm;
    cbn [andb negb app map provider_name].
  all: (split; [simpl; tauto|]).
  all: (split; [repeat constructor; simpl; intros W; entries; solve [congruence]|]).
  all: (split; [intros m; simpl; split; intros W; entries; subst;
                solve [congruence | auto 7]|]).
  all: (split; [simpl; split; intros W; entries;
                solve [congruence | auto 7]|]).
  all: repeat constructor; simpl; auto.
Qed.

End Providers.

(* ===================================================================== *)
(** * Runs on the reference host *)
(* ===================================================================== *)

Section ReferenceRuns.
Import Examples MoreExamples.
#[local] Existing Instance Reference.host.

(** C1 at work: a request without a [signals] object. *)
Lemma invalid_input_is_error_response_witness :
  well_formed_request input_no_signals = false
  /\ exists msg,
       validateInput input_no_signals = Ret (Invalid msg)
       /\ decide service_v1 input_no_signals "req-1" =
          {| response := buildErrorResponse service_v1 msg "req-1";
             analyzeCalls := [] |}
       /\ final (decision (response (decide service_v1 input_no_signals "req-1")))
          = VStr "ERROR"
       /\ source (decision (response (decide service_v1 input_no_signals "req-1")))
          = VStr "SYSTEM_ERROR"
       /\ ruleEvaluation (response (decide service_v1 input_no_signals "req-1"))
          = None.
Proof.
  split; [reflexivity|].
  exact (invalid_input_is_error_response service_v1 input_no_signals "req-1" eq_refl).
Defined.

(** C1 fails as stated: for a request without a [signals] object, and
    for [null], [decide] answers ERROR with source SYSTEM_ERROR and no
    rule evaluation, not a default-outcome decision. *)
Lemma invalid_input_decided_as_system_error :
  final (decision (response (decide service_v1 input_no_signals "req-1")))
    = VStr "ERROR"
  /\ source (decision (response (decide service_v1 input_no_signals "req-1")))
    = VStr "SYSTEM_ERROR"
  /\ ruleEvaluation (response (decide service_v1 input_no_signals "req-1")) = None
  /\ final (decision (response (decide service_v1 VNull "req-2"))) = VStr "ERROR"
  /\ source (decision (response (decide service_v1 VNull "req-2")))
    = VStr "SYSTEM_ERROR".
Proof. repeat split. Qed.

(** First match wins, at work.  A flagged request of score 50 is denied
    by no rule and then matched by [review-flagged]: the path ends
    there, although the last rule of the set could not be evaluated at
    all.  An unflagged request of score 50 matches nothing and gets the
    default outcome, with one attempt per rule. *)
Lemma evaluate_first_match_wins_witness :
  evaluate engine_no_field input_flagged =
    Ret {| outcome := VStr "GREY_ZONE";
           matchedRule := Some {| id := VStr "review-flagged";
                                  name := VStr "Flagged";
                                  priority := num 5 |};
           evaluationPath :=
             [ Attempt (VStr "deny-high-score") (VStr "High score") VFalse;
               Attempt (VStr "review-flagged") (VStr "Flagged") VTrue ] |}
  /\ evaluate engine input_plain = Ret plain_result.
Proof.
  split.
  - apply (proj1 (evaluate_first_match_wins engine_no_field input_flagged eq_refl)
             [deny_high_score] review_flagged
             [allow_low_score; no_priority; no_field] VTrue).
    + reflexivity.
    + repeat constructor. exists VFalse. split; reflexivity.
    + reflexivity.
    + reflexivity.
  - apply (proj2 (evaluate_first_match_wins engine input_plain eq_refl)
             (VStr "GREY_ZONE")).
    + repeat constructor; exists VFalse; split; reflexivity.
    + reflexivity.
Defined.

(** C2 fails on the code.  The loaded sequence is the rule [broken],
    whose leaf condition has no [field], and after it [deny-high-score],
    whose condition matches a score of 90.  The first rule does not
    match and the second does, and [evaluate] returns neither the
    second rule's outcome nor any result: resolving the absent field
    throws outside the [try] of [evaluateCondition], and the loop of
    [evaluate] has no handler. *)
Lemma unevaluable_rule_hides_the_match :
  loadRules (Ret config_broken_first) (new_RuleEngine "config/rules.yaml")
    = (Ret true, engine_broken_first)
  /\ rules engine_broken_first = [broken_first; deny_high_score]
  /\ rule_result deny_high_score input_high = Ret VTrue
  /\ evaluate engine_broken_first input_high
     = Throw (TypeError "Cannot read properties of undefined (reading 'split')").
Proof. repeat split. Qed.

(** C3 at work: an unreadable file, a [null] among the rules, and
    priorities the sort cannot convert. *)
Lemma failed_load_keeps_state_witness :
  reloadRules (Throw (Error "ENOENT: no such file or directory")) service_v1
    = (failure "ENOENT: no such file or directory", service_v1)
  /\ reloadRules (Ret (VObj [("rules", VArr [VNull])])) service_v1
    = (failure "Cannot read properties of null (reading 'id')", service_v1)
  /\ reloadRules (Ret config_unsortable) service_v1
    = (failure "Cannot convert object to primitive value", service_v1).
Proof.
  split; [|split].
  - exact (proj2 (failed_load_keeps_state
                    (Throw (Error "ENOENT: no such file or directory"))
                    service_v1 _ engine eq_refl)).
  - exact (proj2 (failed_load_keeps_state
                    (Ret (VObj [("rules", VArr [VNull])]))
                    service_v1
                    (TypeError "Cannot read properties of null (reading 'id')")
                    engine eq_refl)).
  - exact (proj2 (failed_load_keeps_state
                    (Ret config_unsortable) service_v1
                    (TypeError "Cannot convert object to primitive value")
                    engine eq_refl)).
Defined.


(** C5 at work: against a missing field the comparison answers
    [false]; against a present one it answers a boolean. *)
Lemma ordering_comparison_total_missing_false_witness :
  evaluateCondition (leaf "signals.absent" "lte" (num 100)) input_high = Ret VFalse
  /\ exists b,
       evaluateCondition (leaf "signals.score" "lte" (num 100)) input_high
       = Ret (VBool b).
Proof.
  split.
  - exact (proj1 (proj2 (ordering_comparison_total_missing_false
             (leaf "signals.absent" "lte" (num 100)) input_high
             "signals.absent" "lte" (num 100)
             (leaf_is_leaf _ _ _)
             (or_intror (or_intror (or_intror (or_introl eq_refl))))))
           eq_refl).
  - exact (proj1 (ordering_comparison_total_missing_false
             (leaf "signals.score" "lte" (num 100)) input_high
             "signals.score" "lte" (num 100)
             (leaf_is_leaf _ _ _)
             (or_intror (or_intror (or_intror (or_introl eq_refl)))))
           (num 90) eq_refl).
Defined.

(** C5 fails as stated: an explicit [null] satisfies [gte 0], and a
    score given as text satisfies a comparison with a number. *)
Lemma null_and_text_satisfy_ordering :
  getValue input_high (VStr "signals.flag") = Ret VNull
  /\ evaluateCondition (leaf "signals.flag" "gte" (num 0)) input_high = Ret VTrue
  /\ getValue input_text_score (VStr "signals.score") = Ret (VStr "90")
  /\ evaluateCondition (leaf "signals.score" "gte" (num 80)) input_text_score
     = Ret VTrue.
Proof. repeat split. Qed.

(** C6 fails on the code.  A compound whose operator is XOR, over an
    operand without a [field], is no match by the claim and by the
    method's own description ("returns true if condition matches, false
    otherwise"); the code throws, because the operand's field is
    resolved outside the [try] that turns a failing comparison into
    [false].  A node whose operator token is the empty string throws in
    the same way. *)
Lemma unknown_operator_can_throw :
  evaluateCondition (VObj [("operator", VStr ""); ("operands", VArr [])]) input_high
    = Throw (TypeError "Cannot read properties of undefined (reading 'split')")
  /\ evaluateCondition
       (VObj [("operator", VStr "XOR"); ("operands", VArr [VObj []])]) input_high
    = Throw (TypeError "Cannot read properties of undefined (reading 'split')").
Proof. split; reflexivity. Qed.

(** Compounds at work: the two identities, and an unknown operator
    over an operand that evaluates. *)
Lemma compound_identity_and_unknown_operator_witness :
  evaluateCondition (VObj [("operator", VStr "AND"); ("operands", VArr [])])
    input_high = Ret VTrue
  /\ evaluateCondition (VObj [("operator", VStr "OR"); ("operands", VArr [])])
    input_high = Ret VFalse
  /\ evaluateCondition
       (VObj [("operator", VStr "XOR");
              ("operands", VArr [leaf "signals.score" "gte" (num 0)])])
       input_high = Ret VFalse.
Proof.
  split; [|split].
  - exact (proj1 (compound_identity_and_unknown_operator
                    (VObj [("operator", VStr "AND"); ("operands", VArr [])])
                    input_high) eq_refl eq_refl).
  - exact (proj1 (proj2 (compound_identity_and_unknown_operator
                    (VObj [("operator", VStr "OR"); ("operands", VArr [])])
                    input_high)) eq_refl eq_refl).
  - destruct (proj1 (proj2 (proj2 (compound_identity_and_unknown_operator
                 (VObj [("operator", VStr "XOR");
                        ("operands", VArr [leaf "signals.score" "gte" (num 0)])])
                 input_high))) (VStr "XOR") eq_refl eq_refl)
      as (_ & Hall & _); try discriminate.
    apply (Hall [leaf "signals.score" "gte" (num 0)] eq_refl).
    repeat constructor. exists VTrue. reflexivity.
Defined.





(** C9 fails on the code: a [defaults] section that is present and
    lacks [no_match_outcome] is kept as it is, and the default outcome is
    [undefined]. *)
Lemma empty_defaults_give_undefined_outcome :
  loadRules (Ret config_empty_defaults) (new_RuleEngine "config/rules.yaml")
    = (Ret true, engine_empty_defaults)
  /\ defaults engine_empty_defaults = VObj []
  /\ evaluate engine_empty_defaults input_plain =
     Ret {| outcome := VUndefined; matchedRule := None; evaluationPath := [] |}.
Proof. repeat split. Qed.

(** C10 at work: the score 90 is tested as the text "90"; the pattern
    [.*] matches a field that is absent, [eq] against the text
    "undefined" does not. *)
Lemma regex_tests_missing_as_undefined_witness :
  evaluateCondition (leaf "signals.score" "regex" (VStr "^9")) input_high
    = Ret VTrue
  /\ getValue input_high (VStr "signals.absent") = Ret VUndefined
  /\ evaluateCondition (leaf "signals.absent" "regex" (VStr ".*")) input_high
     = Ret VTrue
  /\ evaluateCondition (leaf "signals.absent" "eq" (VStr "undefined")) input_high
     = Ret VFalse.
Proof.
  split.
  - exact (proj1 (regex_tests_missing_as_undefined
                    (leaf "signals.score" "regex" (VStr "^9")) input_high
                    (num 90) "signals.score" (VStr "^9")
                    (leaf_is_leaf _ _ _) eq_refl)
             "^9" "90" eq_refl eq_refl).
  - pose proof (regex_tests_missing_as_undefined
                  (leaf "signals.absent" "regex" (VStr ".*")) input_high
                  VUndefined "signals.absent" (VStr ".*")
                  (leaf_is_leaf _ _ _) eq_refl) as (_ & _ & Hmissing).
    destruct (Hmissing eq_refl) as (_ & Hre & Heq).
    split; [reflexivity|]. split.
    + exact (Hre ".*" eq_refl eq_refl).
    + apply (proj1 (proj2 (Heq _ (VStr "undefined") (leaf_is_leaf _ _ _)))).
      discriminate.
Defined.

(** C10 fails as stated: [eq] matches a missing field when the
    condition has no [value]. *)
Lemma eq_without_value_matches_missing :
  getValue input_high (VStr "signals.absent") = Ret VUndefined
  /\ evaluateCondition eq_no_value input_high = Ret VTrue.
Proof. split; reflexivity. Qed.

End ReferenceRuns.

(* ===================================================================== *)
(** * Further runs on the reference host *)
(* ===================================================================== *)

Section MoreReferenceRuns.
Import Examples MoreExamples Routes Provider.
#[local] Existing Instance Reference.host.

Lemma engine_reachable : reachable engine.
Proof.
  exact (reachable_load (Ret config) (new_RuleEngine "config/rules.yaml")
           engine (Ret true) (reachable_new _) eq_refl).
Defined.

Lemma engine_with_metadata_reachable : reachable engine_with_metadata.
Proof.
  exact (reachable_load (Ret config_with_metadata)
           (new_RuleEngine "config/rules.yaml")
           engine_with_metadata (Ret true) (reachable_new _) eq_refl).
Defined.

(** X1 at work: score 90 and the name "bob" satisfy both operands. *)
Lemma compound_and_or_of_operands_witness :
  exists b,
    evaluateCondition high_and_named input_high = Ret (VBool b)
    /\ (b = true <->
        Forall (fun op => evaluateCondition op input_high = Ret VTrue)
               [ leaf "signals.score" "gte" (num 80);
                 leaf "request.name" "eq" (VStr "bob") ]).
Proof.
  assert (Forall (fun op => returns (evaluateCondition op input_high))
                 [ leaf "signals.score" "gte" (num 80);
                   leaf "request.name" "eq" (VStr "bob") ]) as W
    by (repeat constructor; exists VTrue; reflexivity).
  apply (proj1 (compound_and_or_of_operands high_and_named input_high
                  [ leaf "signals.score" "gte" (num 80);
                    leaf "request.name" "eq" (VStr "bob") ] eq_refl W)).
  reflexivity.
Defined.

(** X2 at work: the first operand of the OR is [true], the second has
    no field; the OR throws. *)
Lemma compound_evaluates_every_operand_witness :
  evaluateCondition (leaf "signals.score" "gte" (num 80)) input_high = Ret VTrue
  /\ throws (evaluateCondition high_or_broken input_high).
Proof.
  split; [reflexivity|].
  apply (compound_evaluates_every_operand high_or_broken input_high (VStr "OR")
           [ leaf "signals.score" "gte" (num 80);
             VObj [("op", VStr "eq"); ("value", num 1)] ]
           eq_refl eq_refl eq_refl).
  apply Exists_cons_tl, Exists_cons_hd.
  exists (TypeError "Cannot read properties of undefined (reading 'split')").
  reflexivity.
Defined.

(** X3 at work: [matches] is no operator. *)
Lemma unknown_leaf_operator_is_no_match_witness :
  evaluateCondition (leaf "signals.score" "matches" (num 90)) input_high
  = Ret VFalse.
Proof.
  exact (unknown_leaf_operator_is_no_match
           (leaf "signals.score" "matches" (num 90)) input_high
           (num 90) (VStr "matches") (num 90) VUndefined
           "signals.score" "matches"
           (leaf_is_leaf _ _ _) eq_refl eq_refl eq_refl eq_refl eq_refl).
Defined.

(** X5 at work: score 90 against the list [90, 10]. *)
Lemma negated_operators_witness :
  (exists b,
     evaluateCondition (leaf "signals.score" "in" (VArr [num 90; num 10]))
       input_high = Ret (VBool b)
     /\ evaluateCondition (leaf "signals.score" "nin" (VArr [num 90; num 10]))
          input_high = Ret (VBool (negb b)))
  /\ evaluateCondition (leaf "signals.score" "in" (num 90)) input_high
     = Ret VFalse
  /\ evaluateCondition (leaf "signals.score" "nin" (num 90)) input_high
     = Ret VFalse.
Proof.
  split.
  - apply (proj1 (proj2 (negated_operators input_high (num 90)
                           (VArr [num 90; num 10]) "signals.score"
                           _ _ _ _ eq_refl
                           (leaf_is_leaf _ _ _) (leaf_is_leaf _ _ _)
                           (leaf_is_leaf _ _ _) (leaf_is_leaf _ _ _)))).
    reflexivity.
  - apply (proj2 (proj2 (negated_operators input_high (num 90)
                           (num 90) "signals.score"
                           _ _ _ _ eq_refl
                           (leaf_is_leaf _ _ _) (leaf_is_leaf _ _ _)
                           (leaf_is_leaf _ _ _) (leaf_is_leaf _ _ _)))).
    reflexivity.
Defined.

(** X6 at work: the flag written as the text "true" asks for absence,
    and an explicit [null] is absent. *)
Lemma exists_reads_only_the_flag_true_witness :
  evaluateCondition (leaf "signals.flag" "exists" (VStr "true")) input_high
  = Ret VTrue.
Proof.
  apply (proj2 (exists_reads_only_the_flag_true
                  (leaf "signals.flag" "exists" (VStr "true")) input_high
                  VNull (VStr "true") "signals.flag"
                  (leaf_is_leaf _ _ _) eq_refl)).
  discriminate.
Defined.

(** X7 at work. *)
Lemma getValue_composes_witness :
  getValue input_high (VStr "request.name")
  = getValue (VObj [("name", VStr "bob")]) (VStr "name").
Proof.
  exact (getValue_composes input_high (VObj [("name", VStr "bob")])
           "request" "name" eq_refl).
Defined.

(** X8 at work: the four attempts of [plain_result]. *)
Lemma evaluate_result_explained_witness :
  evaluate engine input_plain = Ret plain_result
  /\ List.length (evaluationPath plain_result) <= List.length (rules engine).
Proof.
  split; [reflexivity|].
  exact (proj2 (evaluate_result_explained engine input_plain plain_result
                  eq_refl eq_refl)).
Defined.

(** X9 at work: the rule that denies a score of 90. *)
Lemma matched_outcome_is_one_of_three_witness :
  evaluate engine input_high = Ret high_result
  /\ outcome_valid (outcome high_result) = true
  /\ truthy (VStr "deny-high-score") = true.
Proof.
  split; [reflexivity|].
  exact (matched_outcome_is_one_of_three (Ret config)
           (new_RuleEngine "config/rules.yaml") engine input_high high_result
           {| id := VStr "deny-high-score"; name := VStr "High score";
              priority := num 10 |}
           eq_refl eq_refl eq_refl).
Defined.

(** X10 at work. *)
Lemma getRules_after_load_witness :
  exists infos,
    getRules engine = Ret infos
    /\ List.length infos = 4
    /\ Forall (fun i => info_enabled i = true
                        /\ outcome_valid (info_outcome i) = true
                        /\ truthy (info_id i) = true) infos.
Proof.
  exact (getRules_after_load (Ret config) (new_RuleEngine "config/rules.yaml")
           engine eq_refl).
Defined.

(** X11 at work: four of the six source rules are active. *)
Lemma reloadRules_counts_active_rules_witness :
  reloadRules (Ret config) service_v1
  = ({| success := true; rulesCount := Some 4; reload_error := None |},
     service_v1).
Proof.
  exact (reloadRules_counts_active_rules config service_v1 engine eq_refl).
Defined.

(** X12 at work: an engine that held another configuration. *)
Lemma loadRules_forgets_earlier_state_witness :
  loadRules (Ret config) engine_empty_defaults = (Ret true, engine)
  /\ loadRules (Ret config) engine = (Ret true, engine).
Proof.
  exact (loadRules_forgets_earlier_state (Ret config)
           (new_RuleEngine "config/rules.yaml") engine_empty_defaults engine
           eq_refl eq_refl).
Defined.

(** X14 at work: an unflagged request of score 50 matches no rule and
    reaches the rule without a field. *)
Lemma unevaluable_rule_is_error_response_witness :
  decide service_no_field input_plain "req-1" =
  {| response :=
       buildErrorResponse service_no_field
         "Cannot read properties of undefined (reading 'split')" "req-1";
     analyzeCalls := [] |}.
Proof.
  assert (Forall (no_match input_plain)
                 [deny_high_score; review_flagged; allow_low_score; no_priority])
    as W by (repeat constructor; exists VFalse; split; reflexivity).
  exact (proj2 (unevaluable_rule_is_error_response service_no_field
                  input_plain no_field
                  [deny_high_score; review_flagged; allow_low_score; no_priority]
                  []
                  (TypeError "Cannot read properties of undefined (reading 'split')")
                  "req-1" eq_refl eq_refl W eq_refl)).
Defined.

(** X15 at work: the analyzer's call times out. *)
Lemma failed_analysis_is_error_response_witness :
  decide service_rejecting input_plain "req-1" =
  {| response := buildErrorResponse service_rejecting "connect ETIMEDOUT" "req-1";
     analyzeCalls := [(input_plain, plain_result)] |}.
Proof.
  exact (proj1 (failed_analysis_is_error_response service_rejecting input_plain
                  "req-1" plain_result eq_refl eq_refl eq_refl eq_refl eq_refl)
           (Error "connect ETIMEDOUT") eq_refl).
Defined.

(** X17 at work: the metadata's own [rulesCount] of 99 is written over. *)
Lemma getMetadata_overrides_witness :
  exists ps,
    getMetadata engine_with_metadata = Ret (VObj ps)
    /\ lookup "rulesCount" ps = Some (num 4)
    /\ lookup "defaultOutcome" ps = Some (VStr "GREY_ZONE")
    /\ forall k, k <> "rulesCount" -> k <> "defaultOutcome" ->
                 lookup k ps
                 = lookup k [("name", VStr "default"); ("rulesCount", num 99)].
Proof.
  exact (getMetadata_overrides engine_with_metadata eq_refl).
Defined.

(** X18 at work. *)
Lemma engine_in_use_is_readable_witness :
  returns (getRules engine)
  /\ returns (getMetadata engine)
  /\ evaluate engine VNull =
     Ret {| outcome := VStr "GREY_ZONE"; matchedRule := None;
            evaluationPath := [Marker "INVALID_INPUT"] |}.
Proof.
  destruct (engine_in_use_is_readable engine engine_reachable)
    as (_ & _ & Hr & Hm & He).
  split; [exact Hr|]. split; [exact Hm|]. exact (He VNull eq_refl).
Defined.

(** X19 at work: ready with four rules, not with the 99 of the
    metadata. *)
Lemma ready_iff_rules_loaded_witness :
  exists reply,
    ready false (Ret (VObj [("enabled", VFalse)])) service_with_metadata "2.0.0"
    = Ret reply
    /\ body reply =
       {| ready_status := "ready";
          ready_reason := None;
          ready_version := Some "2.0.0";
          ready_rulesLoaded := Some (num 4);
          ready_aiEnabled := Some VFalse |}.
Proof.
  destruct (ready_iff_rules_loaded false (VObj [("enabled", VFalse)])
              service_with_metadata "2.0.0"
              engine_with_metadata_reachable eq_refl)
    as (reply & Hr & _ & Hiff & Hbody).
  exists reply. split; [exact Hr|].
  apply Hbody, Hiff. split; [reflexivity|]. vm_compute. discriminate.
Defined.

(** X21 at work: the fallback model is the primary one, and Claude has
    no model. *)
Lemma buildAIProviders_lists_configured_witness :
  exists l,
    buildAIProviders env_same_fallback = Ret l
    /\ NoDup l
    /\ (In (gemini_entry env_same_fallback (VStr "gemini-3-flash")) l)
    /\ ~ In (claude_entry env_same_fallback) l.
Proof.
  destruct (buildAIProviders_lists_configured env_same_fallback eq_refl)
    as (l & Hl & _ & Hnd & Hg & Hc & _).
  exists l. split; [exact Hl|]. split; [exact Hnd|]. split.
  - apply Hg. split; [now left|]. split; reflexivity.
  - intros Hin. apply Hc in Hin as [Hm _]. discriminate Hm.
Defined.

End MoreReferenceRuns.
